(** * OpenManus log-event streaming bridge

    A shallow embedding of [app/logger.py] (the observer registry and the
    interception step patched onto the loguru logger) and of the
    [event_stream] generator of [main.py] (the per-connection stream
    driver), with the properties of the bridge stated and proved over
    the embedding. *)

From Stdlib Require Import ZArith Lia List Ascii String.
From stdpp Require Import base list strings.
From Stdlib Require Import DecimalString.
From stdpp Require Import gmap.
Import ListNotations.

Local Open Scope string_scope.
Local Open Scope list_scope.
Local Open Scope Z_scope.

(** ** Python values shared by both modules *)

(** An exception is represented by its text, [str(e)]. *)
Definition exn := string.

(** The result of running a statement block against a store [W]: it
    either falls through, or an exception leaves it; in both cases the
    effects performed so far stay in the store. *)
Inductive outcome (W : Type) : Type :=
| Returned (w : W)
| Raised (e : exn) (w : W).
Arguments Returned {W} w.
Arguments Raised {W} e w.

Definition store_of {W} (o : outcome W) : W :=
  match o with Returned w => w | Raised _ w => w end.


(** Python's [list] indexed by an [int]: a negative index counts from the
    end, an index outside [-len, len) raises [IndexError]. *)
Module PyList.

Definition IndexError : exn := "list assignment index out of range".

Definition index {A} (l : list A) (i : Z) : option nat :=
  let n := Z.of_nat (length l) in
  if (0 <=? i) && (i <? n) then Some (Z.to_nat i)
  else if (- n <=? i) && (i <? 0) then Some (Z.to_nat (i + n))
  else None.

(** [l[i] = x] *)
Definition setitem {A} (l : list A) (i : Z) (x : A) : outcome (list A) :=
  match index l i with
  | Some k => Returned (<[k := x]> l)
  | None => Raised IndexError l
  end.

(** [l[i]] *)
Definition getitem {A} (l : list A) (i : Z) : option A :=
  match index l i with
  | Some k => l !! k
  | None => None
  end.

End PyList.

(** ** loguru, as far as app/logger.py relies on it

    One core holds the handlers (destinations); it is shared by the base
    logger [_logger] and by every logger derived from it.  A logger
    object carries its own list of patchers.  [patch] does not touch the
    logger it is called on: it returns a new logger with one more
    patcher.  A log call builds a record only when the core has a
    handler and the level is not below the lowest handler level; the
    record then passes through the logger's patchers, in order, before
    it is handed to the handlers. *)

Module Loguru.

Inductive level : Type :=
| TRACE | DEBUG | INFO | SUCCESS | WARNING | ERROR | CRITICAL.

Definition no (lv : level) : Z :=
  match lv with
  | TRACE => 5 | DEBUG => 10 | INFO => 20 | SUCCESS => 25
  | WARNING => 30 | ERROR => 40 | CRITICAL => 50
  end.

Inductive sink : Type :=
| Stderr
| File (path : string).

Record handler : Type := { h_sink : sink; h_level : level }.

(** The record dictionary; only these two entries are read here. *)
Record record : Type := { rec_level : level; message : string }.

Record Logger (patcher : Type) : Type := { patchers : list patcher }.
Arguments patchers {patcher} _.

(** [logger.remove()] without an id removes every handler. *)
Definition remove (hs : list handler) : list handler := [].

(** [logger.add(sink, level=...)] *)
Definition add (s : sink) (lv : level) (hs : list handler) : list handler :=
  hs ++ [{| h_sink := s; h_level := lv |}].

(** [logger.patch(patcher)] *)
Definition patch {patcher} (lg : Logger patcher) (p : patcher) : Logger patcher :=
  {| patchers := patchers lg ++ [p] |}.

(** The gate at the head of a log call. *)
Definition admits (hs : list handler) (lv : level) : bool :=
  existsb (fun h => no (h_level h) <=? no lv) hs.

(** The handlers installed by loguru itself when it is imported. *)
Definition preconfigured : list handler := [{| h_sink := Stderr; h_level := DEBUG |}].

End Loguru.

(** ** app/logger.py: interception and configuration *)

Module Logger.
Section Logger.

Import Loguru.

(** The objects that get registered and the rest of the store they act
    on. *)
Context {callback W : Type}.

(** [bool(callback)], the test made by [if callback:]. *)
Variable truth : callback -> bool.

(** The module's globals, with the handlers of [_logger]'s core. *)
Record globals : Type := {
  _print_level : level;
  _log_callbacks : list (option callback);
  handlers : list handler
}.

(** What calling a registered object with a message does.  The call
    runs inside the module's loop and can reach the module: it may
    register or unregister while the loop is under way, so it acts on
    the globals as well as on the rest of the store. *)
Variable invoke : callback -> string -> globals * W -> outcome (globals * W).

(** [PROJECT_ROOT] of app/config.py. *)
Variable PROJECT_ROOT : string.

(** [add_log_callback(callback)]: the new list and the returned id. *)
Definition add_log_callback (cb : callback) (_log_callbacks : list (option callback))
  : list (option callback) * Z :=
  let l := _log_callbacks ++ [Some cb] in
  (l, Z.of_nat (length l) - 1).

(** [remove_log_callback(callback_id)] *)
Definition remove_log_callback (callback_id : Z) (_log_callbacks : list (option callback))
  : outcome (list (option callback)) :=
  if (0 <=? callback_id) && (callback_id <? Z.of_nat (length _log_callbacks))
  then PyList.setitem _log_callbacks callback_id None
  else Returned _log_callbacks.

(** A client of the registry: a sequence of calls of the two
    functions, starting from the module's [_log_callbacks = []]. *)
Inductive call : Type :=
| Add (cb : callback)
| Remove (callback_id : Z).

(** Runs the calls in order; the second component collects the ids
    returned by [add_log_callback], oldest first. *)
Fixpoint run_calls (cs : list call) (l : list (option callback)) (ids : list Z)
  : outcome (list (option callback) * list Z) :=
  match cs with
  | [] => Returned (l, ids)
  | Add cb :: cs' =>
      let '(l', id) := add_log_callback cb l in
      run_calls cs' l' (ids ++ [id])
  | Remove id :: cs' =>
      match remove_log_callback id l with
      | Returned l' => run_calls cs' l' ids
      | Raised e l' => Raised e (l', ids)
      end
  end.

(** How many of the calls are registrations. *)
Fixpoint adds (cs : list call) : nat :=
  match cs with
  | [] => 0%nat
  | Add _ :: cs' => S (adds cs')
  | Remove _ :: cs' => adds cs'
  end.

(** The loop of [_intercept_message]:
    [for callback in _log_callbacks: if callback: callback(message)].
    The iterator of a list keeps an index into the list itself: every
    turn looks at the list as it is then, and the loop ends when the
    index has reached the end of the list.  A callable that keeps
    registering callables keeps the loop going, so the loop is run for
    at most [fuel] turns; [None] says it has not ended by then. *)
Fixpoint fan_out (fuel : nat) (i : nat) (msg : string) (s : globals * W)
  : option (outcome (globals * W)) :=
  match fuel with
  | O => None
  | S fuel' =>
      match _log_callbacks (fst s) !! i with
      | None => Some (Returned s)
      | Some None => fan_out fuel' (S i) msg s
      | Some (Some callback) =>
          if truth callback then
            match invoke callback msg s with
            | Returned s' => fan_out fuel' (S i) msg s'
            | Raised e s' => Some (Raised e s')
            end
          else fan_out fuel' (S i) msg s
      end
  end.

(** [_intercept_message(record)]; the record is part of the store
    because a patcher receives the dictionary itself. *)
Definition _intercept_message (fuel : nat) (rec : record) (s : globals * W)
  : option (outcome (record * (globals * W))) :=
  let msg := message rec in
  match fan_out fuel 0 msg s with
  | Some (Returned s') => Some (Returned (rec, s'))
  | Some (Raised e s') => Some (Raised e (rec, s'))
  | None => None
  end.

(** A patcher, run for at most so many turns of its loop. *)
Definition patcher : Type :=
  nat -> record -> globals * W -> option (outcome (record * (globals * W))).

(** The base logger imported from loguru. *)
Definition _logger : Logger patcher := {| patchers := [] |}.

(** [log_name] of [define_log_level]; [formatted_date] is the clock
    reading [datetime.now().strftime("%Y%m%d%H%M%S")]. *)
Definition log_name (name : option string) (formatted_date : string) : string :=
  match name with
  | Some n => if String.eqb n "" then formatted_date
              else String.append n (String.append "_" formatted_date)
  | None => formatted_date
  end.

(** [define_log_level(print_level, logfile_level, name)] *)
Definition define_log_level (print_level logfile_level : level) (name : option string)
    (formatted_date : string) (g : globals) : globals * Logger patcher :=
  let hs := Loguru.remove (handlers g) in
  let hs := Loguru.add Stderr print_level hs in
  let hs := Loguru.add
              (File (String.append PROJECT_ROOT
                       (String.append "/logs/"
                          (String.append (log_name name formatted_date) ".log"))))
              logfile_level hs in
  ({| _print_level := print_level;
      _log_callbacks := _log_callbacks g;
      handlers := hs |}, _logger).

(** The module body: the globals after import and the exported
    [logger]. *)
Definition imported (formatted_date : string) : globals * Logger patcher :=
  let g := {| _print_level := INFO; _log_callbacks := []; handlers := preconfigured |} in
  let '(g, logger) := define_log_level INFO DEBUG None formatted_date g in
  let logger := Loguru.patch logger _intercept_message in
  (g, logger).

(** The value the name [logger] is bound to by the last statement of
    the module body: [define_log_level()] has returned [_logger]. *)
Definition logger : Logger patcher := Loguru.patch _logger _intercept_message.

(** The patch stage of a log call. *)
Fixpoint apply_patchers (fuel : nat) (ps : list patcher) (rec : record) (s : globals * W)
  : option (outcome (record * (globals * W))) :=
  match ps with
  | [] => Some (Returned (rec, s))
  | p :: ps' =>
      match p fuel rec s with
      | Some (Returned (rec', s')) => apply_patchers fuel ps' rec' s'
      | Some (Raised e rs) => Some (Raised e rs)
      | None => None
      end
  end.

(** [lg.log(lv, msg)] and its shorthands [lg.info(msg)], ...: the
    effect on the globals and on the observers' store. *)
Definition log (fuel : nat) (lg : Logger patcher) (lv : level) (msg : string)
    (s : globals * W) : option (outcome (globals * W)) :=
  if admits (handlers (fst s)) lv then
    match apply_patchers fuel (patchers lg) {| rec_level := lv; message := msg |} s with
    | Some (Returned (_, s')) => Some (Returned s')
    | Some (Raised e (_, s')) => Some (Raised e s')
    | None => None
    end
  else Some (Returned s).

(** A later caller of [define_log_level]: the arguments of each call. *)
Record reconfiguration : Type := {
  rc_print_level : level;
  rc_logfile_level : level;
  rc_name : option string;
  rc_date : string
}.

Definition reconfigure (g : globals) (rc : reconfiguration) : globals * Logger patcher :=
  define_log_level (rc_print_level rc) (rc_logfile_level rc) (rc_name rc) (rc_date rc) g.

Definition reconfigured (rcs : list reconfiguration) (g : globals) : globals :=
  fold_left (fun g rc => fst (reconfigure g rc)) rcs g.

(** The callables held by the slots, in slot order. *)
Definition active (slots : list (option callback)) : list callback :=
  omap id slots.

(** Those of them that pass the test [if callback:]. *)
Definition called (slots : list (option callback)) : list callback :=
  List.filter truth (active slots).

(** The globals with another list of slots. *)
Definition with_callbacks (l : list (option callback)) (g : globals) : globals :=
  {| _print_level := _print_level g; _log_callbacks := l; handlers := handlers g |}.

(** Every callable in the slots that is true under [if callback:],
    called with [msg], returns and leaves the globals as they are. *)
Definition well_behaved (slots : list (option callback)) (msg : string) : Prop :=
  forall cb, Some cb ∈ slots -> truth cb = true ->
    forall g w, exists w', invoke cb msg (g, w) = Returned (g, w').

(** The outcome of a call that has left the globals [g] alone. *)
Definition lift (g : globals) (o : outcome W) : outcome (globals * W) :=
  match o with
  | Returned w => Returned (g, w)
  | Raised e w => Raised e (g, w)
  end.

(** Every callable in the slots neither changes nor reads the globals:
    what it does to the rest of the store is given by [pure]. *)
Definition plain (pure : callback -> string -> W -> outcome W)
    (slots : list (option callback)) : Prop :=
  forall cb, Some cb ∈ slots ->
    forall msg g w, invoke cb msg (g, w) = lift g (pure cb msg w).

(** What one pass of the loop amounts to over slots whose callables are
    plain: the slots are those that were there at the start. *)
Fixpoint sweep (pure : callback -> string -> W -> outcome W)
    (slots : list (option callback)) (msg : string) (w : W) : outcome W :=
  match slots with
  | [] => Returned w
  | None :: rest => sweep pure rest msg w
  | Some cb :: rest =>
      if truth cb then
        match pure cb msg w with
        | Returned w' => sweep pure rest msg w'
        | Raised e w' => Raised e w'
        end
      else sweep pure rest msg w
  end.

End Logger.

(** Observers that note every call they receive, before doing what
    [invoke] does: the note is the pair of the callable and the argument
    it was called with. *)
Definition noting {callback W}
    (invoke : callback -> string -> @globals callback * W -> outcome (@globals callback * W))
    (cb : callback) (msg : string) (s : @globals callback * (W * list (callback * string)))
  : outcome (@globals callback * (W * list (callback * string))) :=
  let notes := snd (snd s) ++ [(cb, msg)] in
  match invoke cb msg (fst s, fst (snd s)) with
  | Returned s' => Returned (fst s', (snd s', notes))
  | Raised e s' => Raised e (fst s', (snd s', notes))
  end.

(** The notes left when each of [cbs] has been called once with [msg],
    in that order. *)
Definition noted {callback} (cbs : list callback) (msg : string) : list (callback * string) :=
  map (fun cb => (cb, msg)) cbs.

End Logger.

(** ** main.py: the stream driver [event_stream] *)

Module Main.

Import Loguru.

(** *** The request *)

(** [str.isspace] on one code point. *)
Definition isspace (c : Z) : bool :=
  ((9 <=? c) && (c <=? 13)) || ((28 <=? c) && (c <=? 32))
  || (c =? 133) || (c =? 160) || (c =? 5760)
  || ((8192 <=? c) && (c <=? 8202))
  || (c =? 8232) || (c =? 8233) || (c =? 8239) || (c =? 8287) || (c =? 12288).

Fixpoint lstrip (s : list Z) : list Z :=
  match s with
  | c :: s' => if isspace c then lstrip s' else s
  | [] => []
  end.

Definition rstrip (s : list Z) : list Z := rev (lstrip (rev s)).

(** [prompt.strip()], the prompt being a sequence of code points. *)
Definition strip (s : list Z) : list Z := rstrip (lstrip s).

(** Truth value of a [str]. *)
Definition truthy (s : list Z) : bool :=
  match s with [] => false | _ :: _ => true end.

(** *** The observers and the agent *)

(** What can sit in [_log_callbacks] while a connection is served: the
    connection's own [log_callback], and any other callable, which for
    a given message returns or raises and has no effect on this
    connection.  Like [log_callback], a function of another connection,
    such a callable is true under [if callback:] and leaves the
    registry alone. *)
Inductive observer : Type :=
| Bridge
| Other (f : string -> option exn).

(** The store of [log_callback]: the tasks made by
    [asyncio.create_task(queue.put(message))] that have not run yet,
    oldest first. *)
Definition effect (o : observer) (msg : string) (puts : list string)
  : outcome (list string) :=
  match o with
  | Bridge => Returned (puts ++ [msg])
  | Other f =>
      match f msg with
      | None => Returned puts
      | Some e => Raised e puts
      end
  end.

(** [bool(callback)] of a function. *)
Definition truth (o : observer) : bool := true.

(** The call as the loop of app/logger.py makes it: the globals of the
    module are within reach and are left as they are. *)
Definition invoke (o : observer) (msg : string)
    (s : Logger.globals (callback := observer) * list string)
  : outcome (Logger.globals (callback := observer) * list string) :=
  Logger.lift (fst s) (effect o msg (snd s)).

(** What [agent.run(prompt)] does between two points where it gives
    control back to the event loop: it logs; at the end it returns or
    raises. *)
Inductive action : Type :=
| Log (lv : level) (msg : string)
| Await.

Record behaviour : Type := { body : list action; ending : option exn }.

Inductive task : Type :=
| NotCreated
| Pending (rest : list action) (ending : option exn)
| Finished (exc : option exn).

(** [agent_task.done()] *)
Definition done (t : task) : bool :=
  match t with Finished _ => true | _ => false end.

(** *** What the client and the collaborators see *)

(** The four [yield] statements of [event_stream]. *)
Inductive site : Type := AtEmpty | AtMessage | AtCompleted | AtError.

Inductive event : Type :=
| Frame (s : site) (text : string)
| Unregistered (callback_id : Z)
| CleanedUp.

Definition nl : string := String "010"%char EmptyString.

(** [f"data: {message}\n\n"] *)
Definition sse (msg : string) : string :=
  String.append "data: " (String.append msg (String.append nl nl)).

(** *** The generator *)

(** Where the generator is suspended. *)
Inductive pc : Type :=
| Fresh
| YieldedEmpty
| Polling
| YieldedMessage
| AwaitingAgent
| YieldedCompleted
| YieldedError
| Closed (exc : option exn).

Record config : Type := {
  prompt : list Z;
  manus : behaviour;
  globals : Logger.globals (callback := observer);
  puts : list string;
  queue : list string;
  callback_id : Z;
  agent_task : task;
  at_ : pc;
  out : list event
}.

Definition set_callbacks (l : list (option observer)) (c : config) : config :=
  {| prompt := prompt c; manus := manus c;
     globals := {| Logger._print_level := Logger._print_level (globals c);
                   Logger._log_callbacks := l;
                   Logger.handlers := Logger.handlers (globals c) |};
     puts := puts c; queue := queue c; callback_id := callback_id c;
     agent_task := agent_task c; at_ := at_ c; out := out c |}.

Definition set_globals (g : Logger.globals (callback := observer)) (c : config) : config :=
  {| prompt := prompt c; manus := manus c; globals := g;
     puts := puts c; queue := queue c; callback_id := callback_id c;
     agent_task := agent_task c; at_ := at_ c; out := out c |}.

Definition set_puts (ps : list string) (c : config) : config :=
  {| prompt := prompt c; manus := manus c; globals := globals c;
     puts := ps; queue := queue c; callback_id := callback_id c;
     agent_task := agent_task c; at_ := at_ c; out := out c |}.

Definition set_queue (q : list string) (c : config) : config :=
  {| prompt := prompt c; manus := manus c; globals := globals c;
     puts := puts c; queue := q; callback_id := callback_id c;
     agent_task := agent_task c; at_ := at_ c; out := out c |}.

Definition set_callback_id (id : Z) (c : config) : config :=
  {| prompt := prompt c; manus := manus c; globals := globals c;
     puts := puts c; queue := queue c; callback_id := id;
     agent_task := agent_task c; at_ := at_ c; out := out c |}.

Definition set_task (t : task) (c : config) : config :=
  {| prompt := prompt c; manus := manus c; globals := globals c;
     puts := puts c; queue := queue c; callback_id := callback_id c;
     agent_task := t; at_ := at_ c; out := out c |}.

Definition goto (p : pc) (c : config) : config :=
  {| prompt := prompt c; manus := manus c; globals := globals c;
     puts := puts c; queue := queue c; callback_id := callback_id c;
     agent_task := agent_task c; at_ := p; out := out c |}.

Definition emit (e : event) (c : config) : config :=
  {| prompt := prompt c; manus := manus c; globals := globals c;
     puts := puts c; queue := queue c; callback_id := callback_id c;
     agent_task := agent_task c; at_ := at_ c; out := out c ++ [e] |}.

(** A call of the exported [logger] of app/logger.py.  The loop of
    [_intercept_message] is given one turn more than there are slots:
    no observer changes the list, so it looks at every slot once and
    then finds the end; the last branch is not reached. *)
Definition logger_call (lv : level) (msg : string) (c : config) : outcome config :=
  match Logger.log (S (length (Logger._log_callbacks (globals c))))
          (Logger.logger truth invoke) lv msg (globals c, puts c) with
  | Some (Returned s) => Returned (set_globals (fst s) (set_puts (snd s) c))
  | Some (Raised e s) => Raised e (set_globals (fst s) (set_puts (snd s) c))
  | None => Returned c
  end.

(** Lines 81-84, the [finally] block; [exc] is the exception that is
    on its way out of the generator, if any.  [agent.cleanup()] is
    taken to return. *)
Definition finally_ (exc : option exn) (c : config) : config :=
  match Logger.remove_log_callback (callback_id c) (Logger._log_callbacks (globals c)) with
  | Returned l =>
      let c := emit (Unregistered (callback_id c)) (set_callbacks l c) in
      let c := emit CleanedUp c in
      goto (Closed exc) c
  | Raised e l => goto (Closed (Some e)) (set_callbacks l c)
  end.

(** Lines 77-80, the [except Exception] block. *)
Definition handler (e : exn) (c : config) : config :=
  let error_msg := String.append "An error occurred: " e in
  match logger_call ERROR error_msg c with
  | Returned c => goto YieldedError (emit (Frame AtError (sse error_msg)) c)
  | Raised e' c => finally_ (Some e') c
  end.

(** Lines 73-75. *)
Definition completed (c : config) : config :=
  match logger_call INFO "Request processing completed." c with
  | Returned c =>
      goto YieldedCompleted (emit (Frame AtCompleted (sse "Request processing completed.")) c)
  | Raised e c => handler e c
  end.

(** Lines 69-71. *)
Definition after_loop (c : config) : config :=
  if negb (done (agent_task c)) then goto AwaitingAgent c else completed c.

(** [queue.empty()] *)
Definition empty (q : list string) : bool :=
  match q with [] => true | _ :: _ => false end.

(** Line 59, the test of the [while]; entering the body suspends the
    generator in [asyncio.wait_for(queue.get(), timeout=0.1)]. *)
Definition loop_head (c : config) : config :=
  if negb (done (agent_task c)) || negb (empty (queue c))
  then goto Polling c
  else after_loop c.

(** Lines 36-59, from the first [__anext__] to the first suspension.
    [Manus()] is taken to return an agent. *)
Definition enter (c : config) : config :=
  let c := set_queue [] c in
  let '(l, id) := Logger.add_log_callback Bridge (Logger._log_callbacks (globals c)) in
  let c := set_callback_id id (set_callbacks l c) in
  if negb (truthy (strip (prompt c))) then
    match logger_call WARNING "Empty prompt provided." c with
    | Returned c => goto YieldedEmpty (emit (Frame AtEmpty (sse "Empty prompt provided.")) c)
    | Raised e c => handler e c
    end
  else
    match logger_call INFO "Processing your request..." c with
    | Returned c =>
        loop_head (set_task (Pending (body (manus c)) (ending (manus c))) c)
    | Raised e c => handler e c
    end.

(** One turn of the agent task: up to its next suspension point or to
    its end.  An exception out of a log call ends the task. *)
Fixpoint run_agent (acts : list action) (ending : option exn) (c : config) : config :=
  match acts with
  | [] => set_task (Finished ending) c
  | Await :: rest => set_task (Pending rest ending) c
  | Log lv msg :: rest =>
      match logger_call lv msg c with
      | Returned c => run_agent rest ending c
      | Raised e c => set_task (Finished (Some e)) c
      end
  end.

(** *** The event loop *)

(** asyncio is cooperative: between two suspension points a task runs
    alone.  A tick is one such stretch of the generator, of the agent
    task or of a [queue.put] task, or a move of the consumer.  Which
    one comes next is left open; put tasks run in the order in which
    they were created.  A generator that is never started registers
    nothing and is not considered. *)
Inductive tick : Type :=
| Resume      (* the consumer asks for the next frame *)
| Abandon     (* the consumer closes the generator, or its task is cancelled *)
| Deliver     (* [queue.get()] completes inside [wait_for] *)
| Timeout     (* [wait_for] raises [TimeoutError] *)
| Joined      (* [await agent_task] completes *)
| RunPut      (* the oldest [queue.put] task runs *)
| RunAgent.   (* the agent task runs *)

(** [GeneratorExit] at a [yield], [CancelledError] at an [await]:
    neither is an [Exception], so only the [finally] block runs. *)
Definition thrown_in (p : pc) : option exn :=
  match p with
  | YieldedEmpty | YieldedMessage | YieldedCompleted | YieldedError => Some "GeneratorExit"
  | Polling | AwaitingAgent => Some "CancelledError"
  | Fresh | Closed _ => None
  end.

Definition step (t : tick) (c : config) : option config :=
  match t with
  | Resume =>
      match at_ c with
      | Fresh => Some (enter c)
      | YieldedEmpty => Some (finally_ None c)
      | YieldedMessage => Some (loop_head c)
      | YieldedCompleted => Some (finally_ None c)
      | YieldedError => Some (finally_ None c)
      | _ => None
      end
  | Abandon =>
      match thrown_in (at_ c) with
      | Some e => Some (finally_ (Some e) c)
      | None => None
      end
  | Deliver =>
      match at_ c, queue c with
      | Polling, message :: q =>
          Some (goto YieldedMessage (emit (Frame AtMessage (sse message)) (set_queue q c)))
      | _, _ => None
      end
  | Timeout =>
      match at_ c with
      | Polling =>
          Some (if done (agent_task c) && empty (queue c) then after_loop c else loop_head c)
      | _ => None
      end
  | Joined =>
      match at_ c, agent_task c with
      | AwaitingAgent, Finished None => Some (completed c)
      | AwaitingAgent, Finished (Some e) => Some (handler e c)
      | _, _ => None
      end
  | RunPut =>
      match puts c with
      | message :: ps => Some (set_queue (queue c ++ [message]) (set_puts ps c))
      | [] => None
      end
  | RunAgent =>
      match agent_task c with
      | Pending acts e => Some (run_agent acts e c)
      | _ => None
      end
  end.

Fixpoint exec (ts : list tick) (c : config) : option config :=
  match ts with
  | [] => Some c
  | t :: ts' =>
      match step t c with
      | Some c' => exec ts' c'
      | None => None
      end
  end.

(** A request arrives: the generator object exists, its body has not
    started; [callback_id] is assigned by the first block that runs. *)
Definition spawn (p : list Z) (m : behaviour) (g : Logger.globals) : config :=
  {| prompt := p; manus := m; globals := g; puts := []; queue := [];
     callback_id := 0; agent_task := NotCreated; at_ := Fresh; out := [] |}.

(** The globals right after app/logger.py has been imported. *)
Definition g0 : Logger.globals :=
  fst (Logger.imported truth invoke "" "20250101000000").

(** *** Reading the output *)

Definition frame_of (e : event) : option (site * string) :=
  match e with Frame s t => Some (s, t) | _ => None end.

(** The frames sent, oldest first. *)
Definition frames (evs : list event) : list (site * string) := omap frame_of evs.

Definition as_frame (f : site * string) : event := Frame (fst f) (snd f).

Definition closed (p : pc) : bool :=
  match p with Closed _ => true | _ => false end.

(** No registered callable other than the bridge ever raises. *)
Definition quiet (l : list (option observer)) : Prop :=
  forall i f msg, l !! i = Some (Some (Other f)) -> f msg = None.

(** *** Shapes of a run *)

(** Frames that all come from the [yield] of the polling loop. *)
Definition all_messages (fs : list (site * string)) : Prop :=
  Forall (fun f => fst f = AtMessage) fs.

(** A frame from any other [yield] has no frame after it. *)
Definition terminal_last (fs : list (site * string)) : Prop :=
  forall i f, fs !! i = Some f -> fst f <> AtMessage -> S i = length fs.

(** [callback_id] names a slot of [_log_callbacks]. *)
Definition registered (c : config) : Prop :=
  0 <= callback_id c < Z.of_nat (length (Logger._log_callbacks (globals c))).

(** What holds of the output at each point of suspension. *)
Definition consistent (c : config) : Prop :=
  exists fs,
    match at_ c with
    | Fresh => out c = [] /\ fs = []
    | Polling | YieldedMessage =>
        out c = map as_frame fs /\ all_messages fs /\ registered c
        /\ agent_task c <> NotCreated
    | AwaitingAgent => False
    | YieldedEmpty | YieldedCompleted | YieldedError =>
        out c = map as_frame fs /\ terminal_last fs /\ registered c
    | Closed _ =>
        out c = map as_frame fs ++ [Unregistered (callback_id c); CleanedUp]
        /\ terminal_last fs
        /\ PyList.getitem (Logger._log_callbacks (globals c)) (callback_id c) = Some None
    end.

(** The events that end a run, once the generator is closed. *)
Definition closing (c : config) : list event :=
  if closed (at_ c) then [Unregistered (callback_id c); CleanedUp] else [].

(** Suspended at a [yield] after which only the [finally] block is left,
    or closed. *)
Definition ending_ (p : pc) : bool :=
  match p with
  | YieldedEmpty | YieldedCompleted | YieldedError | Closed _ => true
  | _ => false
  end.

(** What a run on a blank prompt looks like at each point. *)
Definition blank_run (c : config) : Prop :=
  match at_ c with
  | Fresh => out c = []
  | YieldedEmpty => out c = [Frame AtEmpty (sse "Empty prompt provided.")]
  | Closed _ =>
      out c = [Frame AtEmpty (sse "Empty prompt provided.");
               Unregistered (callback_id c); CleanedUp]
  | _ => False
  end.

(** The invariant of a run on a blank prompt with quiet observers. *)
Definition blank_invariant (c : config) : Prop :=
  forallb isspace (prompt c) = true
  /\ quiet (Logger._log_callbacks (globals c))
  /\ agent_task c = NotCreated
  /\ blank_run c.

(** With quiet observers, no frame comes from the [except] block. *)
Definition no_error_frame (c : config) : Prop :=
  quiet (Logger._log_callbacks (globals c))
  /\ Forall (fun f => fst f <> AtError) (frames (out c)).

(** The messages on their way to the client, oldest first: those
    already sent by the polling loop, those in the queue, and those
    whose put is pending. *)
Definition message_of (f : site * string) : option string :=
  match fst f with AtMessage => Some (snd f) | _ => None end.

Definition pipeline (c : config) : list string :=
  omap message_of (frames (out c)) ++ map sse (queue c) ++ map sse (puts c).

(** One configuration continues another: the pipeline has only grown
    at its end. *)
Definition extends (c c' : config) : Prop := exists tail, pipeline c' = pipeline c ++ tail.

(** *** Further shapes *)

(** No slot holds the bridge. *)
Definition bridgeless (l : list (option observer)) : Prop :=
  forall i, l !! i <> Some (Some Bridge).

(** The bridge sits in no slot other than the one named by
    [callback_id]. *)
Definition bridge_at (c : config) : Prop :=
  forall i, Logger._log_callbacks (globals c) !! i = Some (Some Bridge) ->
            Z.of_nat i = callback_id c.

(** Where the bridge can be at each point of suspension. *)
Definition tidy (c : config) : Prop :=
  match at_ c with
  | Fresh | Closed _ => bridgeless (Logger._log_callbacks (globals c))
  | _ => bridge_at c
  end.

(** The completed frame of line 75. *)
Definition completed_frame : event :=
  Frame AtCompleted (sse "Request processing completed.").

(** What the output looks like when no observer raises and the prompt
    is not blank. *)
Definition orderly (c : config) : Prop :=
  exists fs,
    all_messages fs
    /\ match at_ c with
       | Fresh => out c = []
       | Polling | YieldedMessage => out c = map as_frame fs
       | YieldedCompleted => out c = map as_frame fs ++ [completed_frame]
       | Closed None =>
           out c = map as_frame fs
                   ++ [completed_frame; Unregistered (callback_id c); CleanedUp]
       | Closed (Some _) => True
       | _ => False
       end.

(** The completed frame has been sent. *)
Definition completed_sent (c : config) : Prop :=
  exists text, Frame AtCompleted text ∈ out c.

(** The invariant of a run on a prompt that is not blank, with quiet
    observers. *)
Definition orderly_run (c : config) : Prop :=
  forallb isspace (prompt c) = false
  /\ quiet (Logger._log_callbacks (globals c))
  /\ orderly c.

(** If the completed frame is among the events, the task is done. *)
Definition completed_means_done (t : task) (evs : list event) : Prop :=
  (exists text, Frame AtCompleted text ∈ evs) -> done t = true.

End Main.

(** ** app/tool/yfinance.py: the entry point of the tool *)

Module YFinance.

(** A Python value as it arrives in [kwargs] or in the [info]
    dictionary of a ticker: [None], a [str], an [int], or any other
    object, of which only the truth value and [str()] matter here. *)
Inductive value : Type :=
| VNone
| VStr (s : string)
| VInt (n : Z)
| VObj (truth : bool) (repr : string).

(** Truth value, as tested by [not x] and [x or y]. *)
Definition truthy (v : value) : bool :=
  match v with
  | VNone => false
  | VStr s => negb (String.eqb s "")
  | VInt n => negb (n =? 0)
  | VObj b _ => b
  end.

(** [x == "literal"] *)
Definition eq_str (v : value) (s : string) : bool :=
  match v with
  | VStr s' => String.eqb s' s
  | _ => false
  end.

(** [str(x)], as used by an f-string. *)
Definition str (v : value) : string :=
  match v with
  | VNone => "None"
  | VStr s => s
  | VInt n => NilZero.string_of_int (Z.to_int n)
  | VObj _ r => r
  end.

(** [d.get(key, default)] *)
Definition get (d : gmap string value) (key : string) (default : value) : value :=
  match d !! key with
  | Some v => v
  | None => default
  end.

Definition nl : string := String "010"%char EmptyString.

Fixpoint concat_all (parts : list string) : string :=
  match parts with
  | [] => ""
  | s :: rest => String.append s (concat_all rest)
  end.

(** What a helper method does: it returns a [str] or raises. *)
Inductive reply : Type :=
| Text (s : string)
| Throws (e : exn).

(** What [yf.Ticker(query).info] does: it yields a dictionary or [None],
    or raises. *)
Inductive info_reply : Type :=
| Info (info : option (gmap string value))
| InfoRaises (e : exn).

(** The two ways in which [execute] builds a [ToolResult]; the class is
    defined in app/tool/base.py. *)
Inductive ToolResult : Type :=
| Output (output : string)
| Error (error : string).

Section Tool.

(** The methods that talk to Yahoo Finance and format numbers. *)
Variable get_stock_price : value -> reply.
Variable get_company_info : value -> reply.
Variable get_stock_history : value -> value -> reply.
Variable ticker_info : value -> info_reply.

(** [search_stocks(query, limit)] *)
Definition search_stocks (query limit : value) : string :=
  match ticker_info query with
  | InfoRaises e => String.append "Error searching for stocks: " e
  | Info None => concat_all ["No stocks found matching '"; str query; "'"]
  | Info (Some info) =>
      if bool_decide (info = ∅) || negb (bool_decide (is_Some (info !! "symbol")))
      then concat_all ["No stocks found matching '"; str query; "'"]
      else
        let result := concat_all ["Search results for '"; str query; "':"; nl; nl] in
        let name := get info "shortName" (VStr "Unknown") in
        let symbol := get info "symbol" query in
        let sector := get info "sector" (VStr "Unknown") in
        let industry := get info "industry" (VStr "Unknown") in
        let result := concat_all [result; str symbol; ": "; str name; nl] in
        let result := concat_all [result; "  Sector: "; str sector; nl] in
        let result := concat_all [result; "  Industry: "; str industry; nl; nl] in
        result
  end.

(** The text appended to every result. *)
Definition reminder : string :=
  concat_all [nl; nl; "---"; nl;
              "Financial data retrieval complete. If this was the only task, please call the terminate tool when you're done with all tasks."].

(** [action in ["price", "info", "history", "search"]] *)
Definition known (action : value) : bool :=
  eq_str action "price" || eq_str action "info"
  || eq_str action "history" || eq_str action "search".

(** The end of [execute]: the result of the helper, or its exception
    caught by [except Exception]. *)
Definition finish (action : value) (result : reply) : ToolResult :=
  match result with
  | Text result =>
      Output (if known action then String.append result reminder else result)
  | Throws e => Error (String.append "Error executing YFinance tool: " e)
  end.

(** [execute], called with the keyword arguments [kwargs]. *)
Definition execute (kwargs : gmap string value) : ToolResult :=
  let action := get kwargs "action" VNone in
  let ticker := get kwargs "ticker" VNone in
  let period := get kwargs "period" (VStr "1mo") in
  let query := get kwargs "query" VNone in
  let limit := get kwargs "limit" (VInt 5) in
  if negb (truthy action) then
    Error "Missing required parameter: 'action'. Choose from: price, info, history, search"
  else if negb (truthy ticker) && negb (eq_str action "search") then
    Error "Missing required parameter: 'ticker'"
  else if eq_str action "price" then finish action (get_stock_price ticker)
  else if eq_str action "info" then finish action (get_company_info ticker)
  else if eq_str action "history" then finish action (get_stock_history ticker period)
  else if eq_str action "search" then
    finish action (Text (search_stocks (if truthy query then query else ticker) limit))
  else
    Error (concat_all ["Invalid action: "; str action;
                       ". Choose from: price, info, history, search"]).

End Tool.

End YFinance.

(** ** Sample inputs *)

Module Samples.

Import Loguru.

(** A callable that raises on every message. *)
Definition faulty : Main.observer := Main.Other (fun _ => Some "boom").

(** A callable that raises on one message only. *)
Definition picky : Main.observer :=
  Main.Other (fun msg => if String.eqb msg "Processing your request..." then Some "boom"
                         else None).

(** The module after import, with these slots in [_log_callbacks]. *)
Definition with_slots (l : list (option Main.observer)) : Logger.globals :=
  {| Logger._print_level := Logger._print_level Main.g0;
     Logger._log_callbacks := l;
     Logger.handlers := Logger.handlers Main.g0 |}.

(** Callables for trying out the registry: one that only returns, an
    object that is false under [if callback:], one that raises, one
    that unregisters a handle when it is called, and one that registers
    another callable when it is called. *)
Inductive probe : Type :=
| Plain (n : nat)
| Falsy (n : nat)
| Boom
| Unregisters (callback_id : Z)
| Registers (cb : probe).

Definition probe_truth (p : probe) : bool :=
  match p with Falsy _ => false | _ => true end.

Definition probe_invoke (p : probe) (msg : string)
    (s : Logger.globals (callback := probe) * unit)
  : outcome (Logger.globals (callback := probe) * unit) :=
  match p with
  | Plain _ | Falsy _ => Returned s
  | Boom => Raised "boom" s
  | Unregisters id =>
      match Logger.remove_log_callback id (Logger._log_callbacks (fst s)) with
      | Returned l => Returned (Logger.with_callbacks l (fst s), snd s)
      | Raised e l => Raised e (Logger.with_callbacks l (fst s), snd s)
      end
  | Registers cb =>
      Returned (Logger.with_callbacks
                  (fst (Logger.add_log_callback cb (Logger._log_callbacks (fst s))))
                  (fst s), snd s)
  end.

(** The module after import, with these probes in [_log_callbacks]. *)
Definition probes (l : list (option probe)) : Logger.globals :=
  {| Logger._print_level := Logger._print_level Main.g0;
     Logger._log_callbacks := l;
     Logger.handlers := Logger.handlers Main.g0 |}.

(** A later call [define_log_level("WARNING", "INFO", "run")]. *)
Definition quieter : Logger.reconfiguration :=
  {| Logger.rc_print_level := WARNING; Logger.rc_logfile_level := INFO;
     Logger.rc_name := Some "run"; Logger.rc_date := "20250102030405" |}.

Definition info (msg : string) : record := {| rec_level := INFO; message := msg |}.

(** ["hello"] and ["   "] as code points. *)
Definition hello : list Z := [104; 101; 108; 108; 111].
Definition blank : list Z := [32; 32; 32].

(** An agent run that logs two lines and returns, one that logs one
    line and returns, one that raises, one that returns at once. *)
Definition two_lines : Main.behaviour :=
  {| Main.body := [Main.Log INFO "line1"; Main.Log INFO "line2"]; Main.ending := None |}.
Definition one_line : Main.behaviour :=
  {| Main.body := [Main.Log INFO "line1"]; Main.ending := None |}.
Definition failing : Main.behaviour :=
  {| Main.body := []; Main.ending := Some "boom" |}.
Definition silent : Main.behaviour :=
  {| Main.body := []; Main.ending := None |}.

(** The event loop runs the pending [queue.put] task and then the agent
    task, which finishes in that turn, before the generator is resumed
    with the first message. *)
Definition agent_finishes_first : list Main.tick :=
  [Main.Resume; Main.RunPut; Main.RunAgent; Main.Deliver; Main.Resume; Main.Resume].

(** An agent run that logs, gives control back once, logs twice more
    and returns. *)
Definition three_messages : Main.behaviour :=
  {| Main.body := [Main.Log INFO "m1"; Main.Await; Main.Log INFO "m2"; Main.Log INFO "m3"];
     Main.ending := None |}.

(** The same order of turns when the agent task needs two turns: its
    second turn, in which it finishes, comes before the generator is
    resumed with the message of its first turn. *)
Definition agent_finishes_between : list Main.tick :=
  [Main.Resume; Main.RunPut; Main.RunAgent; Main.Deliver; Main.Resume;
   Main.RunPut; Main.RunAgent; Main.Deliver; Main.Resume; Main.Resume].

End Samples.

(** * Properties

    ** The observer registry *)

Module RegistryProps.
Section Slots.
Context {callback : Type}.
Implicit Types (l : list (option callback)) (id : Z).

Lemma index_in_range {A} (l : list A) (i : Z) :
  0 <= i < Z.of_nat (length l) -> PyList.index l i = Some (Z.to_nat i).
Proof.
  intros H. unfold PyList.index.
  destruct (0 <=? i) eqn:E1; [|lia].
  destruct (i <? Z.of_nat (length l)) eqn:E2; [reflexivity|lia].
Qed.

Lemma remove_in_range id l :
  0 <= id < Z.of_nat (length l) ->
  Logger.remove_log_callback id l = Returned (<[Z.to_nat id := None]> l).
Proof.
  intros H. unfold Logger.remove_log_callback.
  destruct (0 <=? id) eqn:E1; [|lia].
  destruct (id <? Z.of_nat (length l)) eqn:E2; [|lia].
  simpl. unfold PyList.setitem. rewrite index_in_range by lia. reflexivity.
Qed.

Lemma remove_out_of_range id l :
  ~ (0 <= id < Z.of_nat (length l)) ->
  Logger.remove_log_callback id l = Returned l.
Proof.
  intros H. unfold Logger.remove_log_callback.
  destruct (0 <=? id) eqn:E1; simpl; [|reflexivity].
  destruct (id <? Z.of_nat (length l)) eqn:E2; [lia|reflexivity].
Qed.

Lemma remove_returns id l :
  exists l', Logger.remove_log_callback id l = Returned l' /\ length l' = length l.
Proof.
  destruct (decide (0 <= id < Z.of_nat (length l))) as [H|H].
  - eexists. split; [apply remove_in_range; exact H|]. apply length_insert.
  - exists l. split; [apply remove_out_of_range; exact H|reflexivity].
Qed.

(** C7. Unregistering a handle never raises and keeps every slot in
    place: the list keeps its length, every other index keeps its
    content, an issued handle's slot becomes [None], a handle that is
    out of range or whose slot is already [None] leaves the list as it
    is, and a second call changes nothing more. *)
Theorem remove_log_callback_tombstone id l :
  exists l',
    Logger.remove_log_callback id l = Returned l'
    /\ length l' = length l
    /\ (forall j : nat, Z.of_nat j <> id -> l' !! j = l !! j)
    /\ (0 <= id < Z.of_nat (length l) -> PyList.getitem l' id = Some None)
    /\ (~ (0 <= id < Z.of_nat (length l)) \/ PyList.getitem l id = Some None -> l' = l)
    /\ Logger.remove_log_callback id l' = Returned l'.
Proof.
  destruct (decide (0 <= id < Z.of_nat (length l))) as [H|H].
  - exists (<[Z.to_nat id := None]> l).
    assert (Hlen : length (<[Z.to_nat id := None]> l) = length l) by apply length_insert.
    repeat split.
    + apply remove_in_range; exact H.
    + exact Hlen.
    + intros j Hj. apply list_lookup_insert_ne. lia.
    + intros _. unfold PyList.getitem. rewrite index_in_range by (rewrite Hlen; lia).
      apply list_lookup_insert_eq. lia.
    + intros [Hout|Hnone]; [contradiction|].
      unfold PyList.getitem in Hnone. rewrite index_in_range in Hnone by lia.
      apply list_insert_id. exact Hnone.
    + rewrite remove_in_range by (rewrite Hlen; lia).
      rewrite list_insert_insert_eq. reflexivity.
  - exists l. repeat split; try (intros; reflexivity).
    + apply remove_out_of_range; exact H.
    + intros Hin. contradiction.
    + apply remove_out_of_range; exact H.
Qed.

Lemma add_log_callback_id (cb : callback) l :
  Logger.add_log_callback cb l = (l ++ [Some cb], Z.of_nat (length l)).
Proof.
  unfold Logger.add_log_callback. f_equal. rewrite length_app. simpl. lia.
Qed.

(** The ids handed out count up from the length the list had, whatever
    removals come in between; the list grows by one slot per
    registration and never shrinks. *)
Lemma run_calls_ids (cs : list (Logger.call (callback := callback))) l ids :
  exists l',
    Logger.run_calls cs l ids
    = Returned (l', ids ++ map Z.of_nat (seq (length l) (Logger.adds cs)))
    /\ length l' = (length l + Logger.adds cs)%nat.
Proof.
  revert l ids. induction cs as [|[cb|id] cs IH]; intros l ids;
    cbn [Logger.run_calls Logger.adds].
  - exists l. rewrite app_nil_r. split; [reflexivity|lia].
  - rewrite add_log_callback_id.
    destruct (IH (l ++ [Some cb]) (ids ++ [Z.of_nat (length l)])) as (l' & Hrun & Hlen).
    exists l'. rewrite Hrun. rewrite length_app in *. simpl in *.
    replace (length l + 1)%nat with (S (length l)) by lia.
    rewrite <- app_assoc. split; [reflexivity|lia].
  - destruct (remove_returns id l) as (l1 & Hrm & Hlen1). rewrite Hrm.
    destruct (IH l1 ids) as (l' & Hrun & Hlen).
    exists l'. rewrite Hrun, Hlen1. split; [reflexivity|lia].
Qed.

(** C10. After any sequence of registrations and removals on the fresh
    module, the next [add_log_callback] returns the number of slots
    created so far, which is the new length of the list minus one; this
    id is greater than every id handed out before, so it equals none of
    them, whether their slots are still in use or have been freed. *)
Theorem add_log_callback_never_recycles
    (cs : list (Logger.call (callback := callback))) (cb : callback) :
  exists l ids,
    Logger.run_calls cs [] [] = Returned (l, ids)
    /\ snd (Logger.add_log_callback cb l) = Z.of_nat (Logger.adds cs)
    /\ snd (Logger.add_log_callback cb l)
       = Z.of_nat (length (fst (Logger.add_log_callback cb l))) - 1
    /\ Forall (fun h => h < snd (Logger.add_log_callback cb l)) ids
    /\ snd (Logger.add_log_callback cb l) ∉ ids.
Proof.
  destruct (run_calls_ids cs [] []) as (l & Hrun & Hlen). simpl in Hrun, Hlen.
  exists l, (map Z.of_nat (seq 0 (Logger.adds cs))).
  assert (Hlt : Forall (fun h => h < Z.of_nat (length l))
                  (map Z.of_nat (seq 0 (Logger.adds cs)))).
  { rewrite Hlen. apply Forall_forall. intros h Hh.
    apply list_elem_of_In, in_map_iff in Hh. destruct Hh as (k & <- & Hk).
    apply in_seq in Hk. lia. }
  rewrite add_log_callback_id. simpl. rewrite length_app. simpl.
  repeat split.
  - exact Hrun.
  - lia.
  - lia.
  - exact Hlt.
  - intros Hin. rewrite Forall_forall in Hlt. specialize (Hlt _ Hin). lia.
Qed.

End Slots.

Lemma remove_log_callback_tombstone_witness :
exists l' : list (option nat),
  Logger.remove_log_callback 1 [Some 7%nat; Some 8%nat; Some 9%nat] = Returned l'
  /\ length l' = 3%nat
  /\ (forall j : nat, Z.of_nat j <> 1 -> l' !! j = [Some 7%nat; Some 8%nat; Some 9%nat] !! j)
  /\ (0 <= 1 < 3 -> PyList.getitem l' 1 = Some None)
  /\ (~ (0 <= 1 < 3) \/ PyList.getitem [Some 7%nat; Some 8%nat; Some 9%nat] 1 = Some None
      -> l' = [Some 7%nat; Some 8%nat; Some 9%nat])
  /\ Logger.remove_log_callback 1 l' = Returned l'.
Proof. exact (remove_log_callback_tombstone 1 [Some 7%nat; Some 8%nat; Some 9%nat]). Defined.

End RegistryProps.

(** ** Interception and fan-out *)
Module DispatchProps.

Import Loguru.

Section Dispatch.

Context {callback W : Type}.
Variable truth : callback -> bool.
Variable invoke : callback -> string -> Logger.globals (callback := callback) * W
                  -> outcome (Logger.globals (callback := callback) * W).
Implicit Types (slots pre post : list (option callback)) (w : W) (rec : record)
         (g : Logger.globals (callback := callback)).

Lemma well_behaved_app_l pre post msg :
  Logger.well_behaved truth invoke (pre ++ post) msg -> Logger.well_behaved truth invoke pre msg.
Proof. intros H cb Hin. apply H. apply elem_of_app. left. exact Hin. Qed.

Lemma active_app pre post :
  Logger.active (pre ++ post) = Logger.active pre ++ Logger.active post.
Proof. unfold Logger.active. apply omap_app. Qed.

Lemma called_app pre post :
  Logger.called truth (pre ++ post) = Logger.called truth pre ++ Logger.called truth post.
Proof. unfold Logger.called. rewrite active_app. apply List.filter_app. Qed.

Lemma called_all_true slots :
  (forall cb, Some cb ∈ slots -> truth cb = true) ->
  Logger.called truth slots = Logger.active slots.
Proof.
  induction slots as [|[cb|] slots IH]; intros H; simpl.
  - reflexivity.
  - unfold Logger.called, Logger.active in *. simpl.
    rewrite (H cb) by left. f_equal. apply IH. intros cb' Hin. apply H. right. exact Hin.
  - apply IH. intros cb' Hin. apply H. right. exact Hin.
Qed.

(** More turns do not change a pass that has ended. *)
Lemma fan_out_more_fuel fuel fuel' i msg (s : Logger.globals * W) o :
  Logger.fan_out truth invoke fuel i msg s = Some o ->
  (fuel <= fuel')%nat ->
  Logger.fan_out truth invoke fuel' i msg s = Some o.
Proof.
  revert fuel' i s. induction fuel as [|fuel IH]; intros fuel' i s H Hle; [discriminate|].
  destruct fuel' as [|fuel']; [lia|]. simpl in *.
  destruct (Logger._log_callbacks (fst s) !! i) as [[cb|]|]; [|apply IH; [exact H|lia]|exact H].
  destruct (truth cb); [|apply IH; [exact H|lia]].
  destruct (invoke cb msg s); [apply IH; [exact H|lia]|exact H].
Qed.

(** The loop passes through slots whose callables return and leave the
    globals alone: it calls those that are true, in slot order, each
    with the message, and arrives at the slot behind them. *)
Lemma fan_out_through pre rest msg g d :
  Logger._log_callbacks g = pre ++ rest ->
  Logger.well_behaved truth invoke pre msg ->
  forall i fuel w, (i + d = length pre)%nat ->
    exists w',
      Logger.fan_out truth invoke (d + fuel) i msg (g, w)
      = Logger.fan_out truth invoke fuel (length pre) msg (g, w')
      /\ forall notes,
           Logger.fan_out truth (Logger.noting invoke) (d + fuel) i msg (g, (w, notes))
           = Logger.fan_out truth (Logger.noting invoke) fuel (length pre) msg
               (g, (w', notes ++ Logger.noted (Logger.called truth (drop i pre)) msg)).
Proof.
  intros Hg Hwb. induction d as [|d IH]; intros i fuel w Hi.
  - assert (i = length pre) by lia. subst i. exists w. split; [reflexivity|].
    intros notes. rewrite drop_all. simpl. rewrite app_nil_r. reflexivity.
  - assert (Hlt : (i < length pre)%nat) by lia.
    destruct (lookup_lt_is_Some_2 pre i Hlt) as [x Hx].
    assert (Hlook : Logger._log_callbacks g !! i = Some x).
    { rewrite Hg. rewrite lookup_app_l by exact Hlt. exact Hx. }
    rewrite (drop_S pre x i Hx).
    simpl Nat.add. cbn [Logger.fan_out fst]. rewrite Hlook.
    destruct x as [cb|].
    + destruct (truth cb) eqn:Ht.
      * assert (Hin : Some cb ∈ pre) by (apply list_elem_of_lookup; eauto).
        destruct (Hwb cb Hin Ht g w) as [w1 Hw1]. rewrite Hw1.
        destruct (IH (S i) fuel w1 ltac:(lia)) as (w' & H1 & H2).
        exists w'. split; [exact H1|]. intros notes.
        unfold Logger.noting at 1. cbn [fst snd]. rewrite Hw1. cbn [fst snd].
        rewrite H2. unfold Logger.called, Logger.active. simpl. rewrite Ht. simpl.
        rewrite <- app_assoc. reflexivity.
      * destruct (IH (S i) fuel w ltac:(lia)) as (w' & H1 & H2).
        exists w'. split; [exact H1|]. intros notes. rewrite H2.
        unfold Logger.called, Logger.active. simpl. rewrite Ht. reflexivity.
    + destruct (IH (S i) fuel w ltac:(lia)) as (w' & H1 & H2).
      exists w'. split; [exact H1|]. intros notes. rewrite H2. reflexivity.
Qed.

(** A whole pass over such slots. *)
Lemma fan_out_well_behaved slots msg g fuel w :
  Logger._log_callbacks g = slots ->
  Logger.well_behaved truth invoke slots msg ->
  (length slots < fuel)%nat ->
  exists w',
    Logger.fan_out truth invoke fuel 0 msg (g, w) = Some (Returned (g, w'))
    /\ forall notes,
         Logger.fan_out truth (Logger.noting invoke) fuel 0 msg (g, (w, notes))
         = Some (Returned (g, (w', notes ++ Logger.noted (Logger.called truth slots) msg))).
Proof.
  intros Hg Hwb Hfuel.
  destruct (fan_out_through slots [] msg g (length slots)
              ltac:(rewrite app_nil_r; exact Hg) Hwb 0%nat (fuel - length slots)%nat w
              ltac:(lia)) as (w' & H1 & H2).
  replace (length slots + (fuel - length slots))%nat with fuel in * by lia.
  assert (Hend : forall V (f : callback -> string -> Logger.globals * V
                               -> outcome (Logger.globals * V)) (v : V),
             Logger.fan_out truth f (fuel - length slots) (length slots) msg (g, v)
             = Some (Returned (g, v))).
  { intros V f v. destruct (fuel - length slots)%nat as [|k] eqn:E; [lia|].
    simpl. rewrite Hg, lookup_ge_None_2 by lia. reflexivity. }
  exists w'. split.
  - rewrite H1. apply Hend.
  - intros notes. rewrite H2, drop_0. apply Hend.
Qed.

(** Over slots whose callables are plain, a pass of the loop is a sweep
    of the slots that were there at the start. *)
Lemma fan_out_plain_from pure slots msg g d :
  Logger._log_callbacks g = slots ->
  Logger.plain invoke pure slots ->
  forall i fuel w, (i + d = length slots)%nat ->
    Logger.fan_out truth invoke (d + S fuel) i msg (g, w)
    = Some (Logger.lift g (Logger.sweep truth pure (drop i slots) msg w)).
Proof.
  intros Hg Hpl. induction d as [|d IH]; intros i fuel w Hi.
  - assert (i = length slots) by lia. subst i. rewrite drop_all. simpl.
    rewrite Hg, lookup_ge_None_2 by lia. reflexivity.
  - assert (Hlt : (i < length slots)%nat) by lia.
    destruct (lookup_lt_is_Some_2 slots i Hlt) as [x Hx].
    rewrite (drop_S slots x i Hx).
    simpl Nat.add. cbn [Logger.fan_out fst Logger.sweep]. rewrite Hg, Hx.
    destruct x as [cb|]; [|apply IH; lia].
    destruct (truth cb); [|apply IH; lia].
    assert (Hin : Some cb ∈ slots) by (apply list_elem_of_lookup; eauto).
    rewrite (Hpl cb Hin msg g w).
    destruct (pure cb msg w) as [w1|e w1]; simpl; [apply IH; lia|reflexivity].
Qed.

Lemma fan_out_plain pure slots msg g fuel w :
  Logger._log_callbacks g = slots ->
  Logger.plain invoke pure slots ->
  (length slots < fuel)%nat ->
  Logger.fan_out truth invoke fuel 0 msg (g, w)
  = Some (Logger.lift g (Logger.sweep truth pure slots msg w)).
Proof.
  intros Hg Hpl Hfuel.
  pose proof (fan_out_plain_from pure slots msg g (length slots) Hg Hpl 0%nat
                (fuel - S (length slots))%nat w ltac:(lia)) as H.
  replace (length slots + S (fuel - S (length slots)))%nat with fuel in H by lia.
  rewrite H, drop_0. reflexivity.
Qed.

(** A sweep over a concatenation sweeps the first part and, unless that
    raised, the second. *)
Lemma sweep_app (pure : callback -> string -> W -> outcome W) pre post msg w :
  Logger.sweep truth pure (pre ++ post) msg w
  = match Logger.sweep truth pure pre msg w with
    | Returned w' => Logger.sweep truth pure post msg w'
    | Raised e w' => Raised e w'
    end.
Proof.
  revert w. induction pre as [|[cb|] pre IH]; intros w; simpl.
  - reflexivity.
  - destruct (truth cb); [|apply IH].
    destruct (pure cb msg w); [apply IH|reflexivity].
  - apply IH.
Qed.

(** A sweep passes over the empty slots. *)
Lemma sweep_active (pure : callback -> string -> W -> outcome W) slots msg w :
  Logger.sweep truth pure slots msg w
  = Logger.sweep truth pure (map Some (Logger.active slots)) msg w.
Proof.
  revert w. induction slots as [|[cb|] slots IH]; intros w; simpl.
  - reflexivity.
  - destruct (truth cb); [|apply IH].
    destruct (pure cb msg w); [apply IH|reflexivity].
  - apply IH.
Qed.

(** The module body binds [logger] to the patched logger. *)
Lemma imported_logger root formatted_date :
  snd (Logger.imported truth invoke root formatted_date) = Logger.logger truth invoke.
Proof. reflexivity. Qed.

(** The exported logger applies [_intercept_message] once to the record
    it builds, when the gate lets the call through. *)
Lemma log_logger {V} (t : callback -> bool)
    (f : callback -> string -> Logger.globals * V -> outcome (Logger.globals * V))
    fuel lv msg (s : Logger.globals * V) :
  Logger.log fuel (Logger.logger t f) lv msg s
  = if admits (Logger.handlers (fst s)) lv
    then Logger.fan_out t f fuel 0 msg s
    else Some (Returned s).
Proof.
  unfold Logger.log. destruct (admits _ _); [|reflexivity].
  simpl. unfold Logger._intercept_message. simpl.
  destruct (Logger.fan_out t f fuel 0 msg s) as [[s'|e s']|]; reflexivity.
Qed.

Lemma reconfigured_callbacks {V} root rcs g :
  Logger._log_callbacks (Logger.reconfigured (W := V) root rcs g) = Logger._log_callbacks g.
Proof.
  unfold Logger.reconfigured. revert g.
  induction rcs as [|rc rcs IH]; intros g; simpl; [reflexivity|].
  rewrite IH. reflexivity.
Qed.

(** C6, amended. When every registered callable that is true under
    [if callback:], called with the message, returns and leaves the
    registry as it is, one run of [_intercept_message] calls each of
    them exactly once, in slot order, each time with the record's
    message itself, and calls nothing else: no empty slot and no
    callable that is false under the test; the number of calls is the
    number of these slots, which is the number of non-empty slots when
    every registered callable is true; the loop ends within one turn
    per slot and one more, and the record is returned as it came. *)
Theorem intercept_message_fans_out g rec w fuel :
  Logger.well_behaved truth invoke (Logger._log_callbacks g) (message rec) ->
  (length (Logger._log_callbacks g) < fuel)%nat ->
  exists w',
    Logger._intercept_message truth (Logger.noting invoke) fuel rec (g, (w, []))
    = Some (Returned
              (rec, (g, (w', Logger.noted (Logger.called truth (Logger._log_callbacks g))
                               (message rec)))))
    /\ length (Logger.noted (Logger.called truth (Logger._log_callbacks g)) (message rec))
       = length (Logger.called truth (Logger._log_callbacks g))
    /\ ((forall cb, Some cb ∈ Logger._log_callbacks g -> truth cb = true) ->
        Logger.called truth (Logger._log_callbacks g)
        = Logger.active (Logger._log_callbacks g))
    /\ Logger._intercept_message truth invoke fuel rec (g, w) = Some (Returned (rec, (g, w'))).
Proof.
  intros Hwb Hfuel.
  destruct (fan_out_well_behaved _ (message rec) g fuel w eq_refl Hwb Hfuel) as (w' & H1 & H2).
  exists w'. unfold Logger._intercept_message. rewrite H1, (H2 []). simpl.
  repeat split.
  - unfold Logger.noted. apply length_map.
  - apply called_all_true.
Qed.


(** C9, amended. After any number of calls of [define_log_level], the
    exported [logger] still carries [_intercept_message] once and the
    list of observers is as it was: a message logged through [logger]
    at a level that the new destinations admit reaches every registered
    observer that is true under [if callback:] exactly once, in slot
    order, provided that none of them raises or changes the registry
    during the dispatch.  The logger object that [define_log_level]
    itself returns has no patcher. *)
Theorem reconfiguration_keeps_interception root rcs g lv msg w fuel :
  admits (Logger.handlers (Logger.reconfigured (W := W) root rcs g)) lv = true ->
  Logger.well_behaved truth invoke (Logger._log_callbacks g) msg ->
  (length (Logger._log_callbacks g) < fuel)%nat ->
  exists w',
    Logger.log fuel (Logger.logger truth (Logger.noting invoke)) lv msg
      (Logger.reconfigured (W := W) root rcs g, (w, []))
    = Some (Returned
              (Logger.reconfigured (W := W) root rcs g,
               (w', Logger.noted (Logger.called truth (Logger._log_callbacks g)) msg)))
    /\ forall rc,
         patchers (snd (Logger.reconfigure (W := W) root
                          (Logger.reconfigured (W := W) root rcs g) rc)) = [].
Proof.
  intros Hadm Hwb Hfuel.
  assert (Hcbs : Logger._log_callbacks (Logger.reconfigured (W := W) root rcs g)
                 = Logger._log_callbacks g) by apply reconfigured_callbacks.
  destruct (fan_out_well_behaved (Logger._log_callbacks g) msg
              (Logger.reconfigured (W := W) root rcs g) fuel w Hcbs Hwb Hfuel)
    as (w' & _ & H2).
  exists w'. split.
  - rewrite log_logger. cbn [fst]. rewrite Hadm. apply (H2 []).
  - intros rc. reflexivity.
Qed.

End Dispatch.
(** Goes through the slots of a literal list. *)
Ltac each_slot H :=
  repeat (apply elem_of_cons in H; destruct H as [H|H];
          [try discriminate H; injection H as ->; intros _ g w; eexists; reflexivity|]);
  try (apply elem_of_nil in H; contradiction).

Lemma intercept_message_fans_out_witness :
  Logger.well_behaved Samples.probe_truth Samples.probe_invoke
    (Logger._log_callbacks
       (Samples.probes [Some (Samples.Plain 0); None; Some (Samples.Falsy 1);
                        Some (Samples.Plain 2)]))
    (message (Samples.info "m"))
  /\ (length (Logger._log_callbacks
                (Samples.probes [Some (Samples.Plain 0); None; Some (Samples.Falsy 1);
                                 Some (Samples.Plain 2)])) < 5)%nat
  /\ Logger.called Samples.probe_truth
       [Some (Samples.Plain 0); None; Some (Samples.Falsy 1); Some (Samples.Plain 2)]
     = [Samples.Plain 0; Samples.Plain 2]
  /\ exists w',
      Logger._intercept_message Samples.probe_truth (Logger.noting Samples.probe_invoke) 5
        (Samples.info "m")
        (Samples.probes [Some (Samples.Plain 0); None; Some (Samples.Falsy 1);
                         Some (Samples.Plain 2)], (tt, []))
      = Some (Returned
                (Samples.info "m",
                 (Samples.probes [Some (Samples.Plain 0); None; Some (Samples.Falsy 1);
                                  Some (Samples.Plain 2)],
                  (w', Logger.noted
                         (Logger.called Samples.probe_truth
                            (Logger._log_callbacks
                               (Samples.probes [Some (Samples.Plain 0); None;
                                                Some (Samples.Falsy 1);
                                                Some (Samples.Plain 2)])))
                         (message (Samples.info "m"))))))
      /\ length (Logger.noted
                   (Logger.called Samples.probe_truth
                      (Logger._log_callbacks
                         (Samples.probes [Some (Samples.Plain 0); None;
                                          Some (Samples.Falsy 1);
                                          Some (Samples.Plain 2)])))
                   (message (Samples.info "m")))
         = length (Logger.called Samples.probe_truth
                     (Logger._log_callbacks
                        (Samples.probes [Some (Samples.Plain 0); None;
                                         Some (Samples.Falsy 1);
                                         Some (Samples.Plain 2)])))
      /\ ((forall cb,
             Some cb ∈ Logger._log_callbacks
                         (Samples.probes [Some (Samples.Plain 0); None;
                                          Some (Samples.Falsy 1);
                                          Some (Samples.Plain 2)]) ->
             Samples.probe_truth cb = true) ->
          Logger.called Samples.probe_truth
            (Logger._log_callbacks
               (Samples.probes [Some (Samples.Plain 0); None; Some (Samples.Falsy 1);
                                Some (Samples.Plain 2)]))
          = Logger.active
              (Logger._log_callbacks
                 (Samples.probes [Some (Samples.Plain 0); None; Some (Samples.Falsy 1);
                                  Some (Samples.Plain 2)])))
      /\ Logger._intercept_message Samples.probe_truth Samples.probe_invoke 5
           (Samples.info "m")
           (Samples.probes [Some (Samples.Plain 0); None; Some (Samples.Falsy 1);
                            Some (Samples.Plain 2)], tt)
         = Some (Returned
                   (Samples.info "m",
                    (Samples.probes [Some (Samples.Plain 0); None; Some (Samples.Falsy 1);
                                     Some (Samples.Plain 2)], w'))).
Proof.
  assert (H : Logger.well_behaved Samples.probe_truth Samples.probe_invoke
                (Logger._log_callbacks
                   (Samples.probes [Some (Samples.Plain 0); None; Some (Samples.Falsy 1);
                                    Some (Samples.Plain 2)]))
                (message (Samples.info "m"))).
  { intros cb Hin. simpl in Hin. each_slot Hin. }
  split; [exact H|]. split; [simpl; lia|]. split; [reflexivity|].
  exact (intercept_message_fans_out Samples.probe_truth Samples.probe_invoke
           (Samples.probes [Some (Samples.Plain 0); None; Some (Samples.Falsy 1);
                            Some (Samples.Plain 2)])
           (Samples.info "m") tt 5%nat H ltac:(simpl; lia)).
Defined.

(** C6, as stated, fails.  Each of these registries has two non-empty
    slots, and one dispatch makes one call, not two: in the first the
    callable of slot 0 raises; in the second it is false under
    [if callback:] and is passed over; in the third it returns, having
    unregistered slot 1 while the loop was running. *)
Lemma intercept_message_count_counterexample :
  length (Logger.active [Some Samples.Boom; Some (Samples.Plain 1)]) = 2%nat
  /\ Logger._intercept_message Samples.probe_truth (Logger.noting Samples.probe_invoke) 3
       (Samples.info "m")
       (Samples.probes [Some Samples.Boom; Some (Samples.Plain 1)], (tt, []))
     = Some (Raised "boom"
               (Samples.info "m",
                (Samples.probes [Some Samples.Boom; Some (Samples.Plain 1)],
                 (tt, [(Samples.Boom, "m")]))))
  /\ length (Logger.active [Some (Samples.Falsy 0); Some (Samples.Plain 1)]) = 2%nat
  /\ Logger._intercept_message Samples.probe_truth (Logger.noting Samples.probe_invoke) 3
       (Samples.info "m")
       (Samples.probes [Some (Samples.Falsy 0); Some (Samples.Plain 1)], (tt, []))
     = Some (Returned
               (Samples.info "m",
                (Samples.probes [Some (Samples.Falsy 0); Some (Samples.Plain 1)],
                 (tt, [(Samples.Plain 1, "m")]))))
  /\ length (Logger.active [Some (Samples.Unregisters 1); Some (Samples.Plain 1)]) = 2%nat
  /\ Logger._intercept_message Samples.probe_truth (Logger.noting Samples.probe_invoke) 3
       (Samples.info "m")
       (Samples.probes [Some (Samples.Unregisters 1); Some (Samples.Plain 1)], (tt, []))
     = Some (Returned
               (Samples.info "m",
                (Samples.probes [Some (Samples.Unregisters 1); None],
                 (tt, [(Samples.Unregisters 1, "m")])))).
Proof. repeat split; reflexivity. Qed.



Lemma reconfiguration_keeps_interception_witness :
  admits (Logger.handlers
            (Logger.reconfigured (W := unit) "/srv" [Samples.quieter]
               (Samples.probes [Some (Samples.Plain 0); None; Some (Samples.Falsy 1)])))
    INFO = true
  /\ Logger.well_behaved Samples.probe_truth Samples.probe_invoke
       (Logger._log_callbacks
          (Samples.probes [Some (Samples.Plain 0); None; Some (Samples.Falsy 1)])) "m"
  /\ (length (Logger._log_callbacks
                (Samples.probes [Some (Samples.Plain 0); None; Some (Samples.Falsy 1)]))
      < 4)%nat
  /\ exists w',
      Logger.log 4 (Logger.logger Samples.probe_truth (Logger.noting Samples.probe_invoke))
        INFO "m"
        (Logger.reconfigured (W := unit) "/srv" [Samples.quieter]
           (Samples.probes [Some (Samples.Plain 0); None; Some (Samples.Falsy 1)]),
         (tt, []))
      = Some (Returned
                (Logger.reconfigured (W := unit) "/srv" [Samples.quieter]
                   (Samples.probes [Some (Samples.Plain 0); None; Some (Samples.Falsy 1)]),
                 (w', Logger.noted
                        (Logger.called Samples.probe_truth
                           (Logger._log_callbacks
                              (Samples.probes [Some (Samples.Plain 0); None;
                                               Some (Samples.Falsy 1)])))
                        "m")))
      /\ forall rc,
           patchers (snd (Logger.reconfigure (W := unit) "/srv"
                            (Logger.reconfigured (W := unit) "/srv" [Samples.quieter]
                               (Samples.probes [Some (Samples.Plain 0); None;
                                                Some (Samples.Falsy 1)])) rc)) = [].
Proof.
  assert (H : Logger.well_behaved Samples.probe_truth Samples.probe_invoke
                (Logger._log_callbacks
                   (Samples.probes [Some (Samples.Plain 0); None; Some (Samples.Falsy 1)]))
                "m").
  { intros cb Hin. simpl in Hin. each_slot Hin. }
  split; [reflexivity|]. split; [exact H|]. split; [simpl; lia|].
  exact (reconfiguration_keeps_interception Samples.probe_truth Samples.probe_invoke
           "/srv" [Samples.quieter]
           (Samples.probes [Some (Samples.Plain 0); None; Some (Samples.Falsy 1)])
           INFO "m" tt 4%nat eq_refl H ltac:(simpl; lia)).
Defined.

(** C9, as stated, fails: a message logged through the logger that a
    re-configuration returns reaches no observer, and after a
    re-configuration to higher levels an INFO message logged through the
    exported logger reaches none either; before, it reached the bridge
    once. *)
Lemma reconfiguration_drops_counterexample :
  Logger.log 2 (Logger.logger Main.truth Main.invoke) INFO "m"
    (Samples.with_slots [Some Main.Bridge], [])
  = Some (Returned (Samples.with_slots [Some Main.Bridge], ["m"]))
  /\ Logger.log 2
       (snd (Logger.define_log_level (W := list string) "/srv" INFO DEBUG None "20250102030405"
               (Samples.with_slots [Some Main.Bridge])))
       INFO "m"
       (fst (Logger.define_log_level (W := list string) "/srv" INFO DEBUG None "20250102030405"
               (Samples.with_slots [Some Main.Bridge])), [])
     = Some (Returned
               (fst (Logger.define_log_level (W := list string) "/srv" INFO DEBUG None
                       "20250102030405" (Samples.with_slots [Some Main.Bridge])), []))
  /\ Logger.log 2 (Logger.logger Main.truth Main.invoke) INFO "m"
       (fst (Logger.define_log_level (W := list string) "/srv" ERROR ERROR None "20250102030405"
               (Samples.with_slots [Some Main.Bridge])), [])
     = Some (Returned
               (fst (Logger.define_log_level (W := list string) "/srv" ERROR ERROR None
                       "20250102030405" (Samples.with_slots [Some Main.Bridge])), [])).
Proof. repeat split; reflexivity. Qed.

End DispatchProps.

Module DriverProps.

Import Loguru Main.

Implicit Types (c : config) (fs : list (site * string)).

(** *** Log calls touch nothing but the pending puts *)

(** The observers of the driver's model neither read nor change the
    module's globals. *)
Lemma observers_plain (l : list (option observer)) : Logger.plain invoke effect l.
Proof. intros cb _ msg g w. reflexivity. Qed.

(** A log call of the driver is a sweep of the slots that are there
    when it starts; the loop always ends within the turns it is given. *)
Lemma logger_call_sweep lv msg c :
  logger_call lv msg c
  = match (if admits (Logger.handlers (globals c)) lv
           then Logger.sweep truth effect (Logger._log_callbacks (globals c)) msg (puts c)
           else Returned (puts c)) with
    | Returned ps => Returned (set_puts ps c)
    | Raised e ps => Raised e (set_puts ps c)
    end.
Proof.
  unfold logger_call. rewrite DispatchProps.log_logger. cbn [fst].
  destruct (admits _ lv); [|reflexivity].
  rewrite (DispatchProps.fan_out_plain truth invoke effect
             (Logger._log_callbacks (globals c)) msg (globals c)
             (S (length (Logger._log_callbacks (globals c)))) (puts c) eq_refl
             (observers_plain _) ltac:(lia)).
  destruct (Logger.sweep _ _ _ _ _); reflexivity.
Qed.

Lemma logger_call_cases lv msg c :
  exists ps, logger_call lv msg c = Returned (set_puts ps c)
             \/ exists e, logger_call lv msg c = Raised e (set_puts ps c).
Proof.
  rewrite logger_call_sweep.
  destruct (if admits _ lv then _ else _) as [ps|e ps]; exists ps; eauto.
Qed.

Lemma all_messages_terminal_last fs : all_messages fs -> terminal_last fs.
Proof.
  intros H i f Hi Hne. exfalso. apply Hne.
  unfold all_messages in H. rewrite Forall_forall in H. apply H.
  apply list_elem_of_lookup. eauto.
Qed.

Lemma terminal_last_snoc fs f : all_messages fs -> terminal_last (fs ++ [f]).
Proof.
  intros H i f' Hi Hne. rewrite length_app. simpl.
  destruct (decide (i < length fs)%nat) as [Hlt|Hge].
  - rewrite lookup_app_l in Hi by exact Hlt.
    exfalso. apply Hne. unfold all_messages in H. rewrite Forall_forall in H.
    apply H. apply list_elem_of_lookup. eauto.
  - apply lookup_lt_Some in Hi. rewrite length_app in Hi. simpl in Hi. lia.
Qed.

Lemma map_as_frame_snoc fs s t :
  map as_frame fs ++ [Frame s t] = map as_frame (fs ++ [(s, t)]).
Proof. rewrite map_app. reflexivity. Qed.

(** *** The blocks of the generator keep the output in shape *)

Lemma finally_consistent exc c fs :
  out c = map as_frame fs -> terminal_last fs -> registered c ->
  consistent (finally_ exc c) /\ closed (at_ (finally_ exc c)) = true.
Proof.
  intros Hout Hlast Hreg. unfold finally_.
  rewrite (RegistryProps.remove_in_range _ _ Hreg). simpl. split; [|reflexivity].
  exists fs. simpl. rewrite Hout, <- app_assoc. simpl. repeat split; try assumption.
  unfold PyList.getitem. unfold registered in Hreg.
  rewrite RegistryProps.index_in_range by (rewrite length_insert; lia).
  apply list_lookup_insert_eq. lia.
Qed.

Lemma finally_closed exc c : closed (at_ (finally_ exc c)) = true.
Proof.
  unfold finally_. destruct (Logger.remove_log_callback _ _); reflexivity.
Qed.

Lemma handler_consistent e c fs :
  out c = map as_frame fs -> all_messages fs -> registered c ->
  consistent (handler e c).
Proof.
  intros Hout Hall Hreg. unfold handler.
  destruct (logger_call_cases ERROR (String.append "An error occurred: " e) c)
    as [ps [H|[e' H]]]; rewrite H.
  - eexists (fs ++ [(AtError, _)]). simpl. rewrite Hout, map_as_frame_snoc.
    repeat split; [apply terminal_last_snoc; exact Hall|apply Hreg..].
  - apply (finally_consistent _ _ fs); simpl; auto using all_messages_terminal_last.
Qed.

Lemma completed_consistent c fs :
  out c = map as_frame fs -> all_messages fs -> registered c ->
  consistent (completed c).
Proof.
  intros Hout Hall Hreg. unfold completed.
  destruct (logger_call_cases INFO "Request processing completed." c)
    as [ps [H|[e' H]]]; rewrite H.
  - eexists (fs ++ [(AtCompleted, _)]). simpl. rewrite Hout, map_as_frame_snoc.
    repeat split; [apply terminal_last_snoc; exact Hall|apply Hreg..].
  - apply (handler_consistent _ _ fs); simpl; auto.
Qed.

Lemma after_loop_consistent c fs :
  out c = map as_frame fs -> all_messages fs -> registered c ->
  done (agent_task c) = true ->
  consistent (after_loop c).
Proof.
  intros Hout Hall Hreg Hdone. unfold after_loop. rewrite Hdone. simpl.
  eapply completed_consistent; eauto.
Qed.

Lemma loop_head_consistent c fs :
  out c = map as_frame fs -> all_messages fs -> registered c ->
  agent_task c <> NotCreated ->
  consistent (loop_head c).
Proof.
  intros Hout Hall Hreg Hnc. unfold loop_head.
  destruct (done (agent_task c)) eqn:Hdone; simpl.
  - destruct (empty (queue c)); simpl.
    + eapply after_loop_consistent; eauto.
    + exists fs. simpl. auto.
  - exists fs. simpl. auto.
Qed.


Lemma enter_consistent c : out c = [] -> consistent (enter c).
Proof.
  intros Hout. unfold enter. rewrite RegistryProps.add_log_callback_id.
  set (c1 := set_callback_id _ (set_callbacks _ (set_queue [] c))).
  assert (Hreg : registered c1).
  { unfold registered. simpl. rewrite length_app. simpl. lia. }
  assert (Hout1 : out c1 = map as_frame []) by exact Hout.
  assert (Hall : all_messages []) by constructor.
  destruct (negb (truthy (strip (prompt c1)))).
  - destruct (logger_call_cases WARNING "Empty prompt provided." c1)
      as [ps [H|[e' H]]]; rewrite H.
    + eexists [(AtEmpty, _)]. simpl. rewrite Hout. simpl.
      repeat split; [apply (terminal_last_snoc [] _ Hall)|apply Hreg..].
    + apply (handler_consistent _ _ []); simpl; auto.
  - destruct (logger_call_cases INFO "Processing your request..." c1)
      as [ps [H|[e' H]]]; rewrite H.
    + apply (loop_head_consistent _ []); simpl; auto; discriminate.
    + apply (handler_consistent _ _ []); simpl; auto.
Qed.

(** A turn of the agent task changes the pending puts and the task. *)
Lemma run_agent_frame acts e c :
  prompt (run_agent acts e c) = prompt c
  /\ manus (run_agent acts e c) = manus c
  /\ globals (run_agent acts e c) = globals c
  /\ queue (run_agent acts e c) = queue c
  /\ callback_id (run_agent acts e c) = callback_id c
  /\ at_ (run_agent acts e c) = at_ c
  /\ out (run_agent acts e c) = out c
  /\ agent_task (run_agent acts e c) <> NotCreated.
Proof.
  revert c. induction acts as [|[lv msg|] acts IH]; intros c; simpl.
  - repeat split; discriminate.
  - destruct (logger_call_cases lv msg c) as [ps [H|[e' H]]]; rewrite H.
    + destruct (IH (set_puts ps c)) as (?&?&?&?&?&?&?&?). repeat split; assumption.
    + repeat split; discriminate.
  - repeat split; discriminate.
Qed.

Lemma consistent_ext c c' :
  at_ c' = at_ c -> out c' = out c -> callback_id c' = callback_id c ->
  globals c' = globals c ->
  (agent_task c <> NotCreated -> agent_task c' <> NotCreated) ->
  consistent c -> consistent c'.
Proof.
  intros Hat Hout Hid Hg Htask [fs H]. exists fs.
  unfold registered in *. rewrite Hat, Hout, Hid, Hg.
  destruct (at_ c); intuition.
Qed.

Lemma step_consistent t c c' : consistent c -> step t c = Some c' -> consistent c'.
Proof.
  intros Hcons Hstep. pose proof Hcons as [fs Hc].
  destruct t; simpl in Hstep.
  - (* Resume *)
    destruct (at_ c) eqn:Hat; try discriminate; injection Hstep as <-.
    + apply enter_consistent. tauto.
    + apply (finally_consistent _ _ fs); tauto.
    + apply (loop_head_consistent _ fs); tauto.
    + apply (finally_consistent _ _ fs); tauto.
    + apply (finally_consistent _ _ fs); tauto.
  - (* Abandon *)
    destruct (at_ c) eqn:Hat; simpl in Hstep; try discriminate; try contradiction;
      injection Hstep as <-;
      apply (finally_consistent _ _ fs); intuition auto using all_messages_terminal_last.
  - (* Deliver *)
    destruct (at_ c) eqn:Hat; try discriminate.
    destruct (queue c) as [|message q] eqn:Hq; try discriminate. injection Hstep as <-.
    destruct Hc as (Hout & Hall & Hreg & Htask).
    exists (fs ++ [(AtMessage, sse message)]). simpl.
    rewrite Hout, map_as_frame_snoc. repeat split; try apply Hreg; try assumption.
    apply Forall_app. split; [exact Hall|]. repeat constructor.
  - (* Timeout *)
    destruct (at_ c) eqn:Hat; try discriminate. injection Hstep as <-.
    destruct Hc as (Hout & Hall & Hreg & Htask).
    destruct (done (agent_task c)) eqn:Hdone; simpl.
    + destruct (empty (queue c)).
      * apply (after_loop_consistent _ fs); auto.
      * apply (loop_head_consistent _ fs); auto.
    + apply (loop_head_consistent _ fs); auto.
  - (* Joined *)
    destruct (at_ c) eqn:Hat; try discriminate. contradiction.
  - (* RunPut *)
    destruct (puts c) as [|message ps]; try discriminate. injection Hstep as <-.
    apply (consistent_ext c); simpl; auto.
  - (* RunAgent *)
    destruct (agent_task c) as [|acts e|] eqn:Htask; try discriminate.
    injection Hstep as <-.
    destruct (run_agent_frame acts e c) as (_&_&Hg&_&Hid&Hat&Hout&Hnc).
    apply (consistent_ext c); auto.
Qed.

Lemma exec_consistent ts c c' : consistent c -> exec ts c = Some c' -> consistent c'.
Proof.
  revert c. induction ts as [|t ts IH]; intros c Hc Hexec; simpl in Hexec.
  - injection Hexec as <-. exact Hc.
  - destruct (step t c) as [c1|] eqn:Hstep; [|discriminate].
    eapply IH; [eapply step_consistent; eauto|exact Hexec].
Qed.

Lemma spawn_consistent p m g : consistent (spawn p m g).
Proof. exists []. simpl. auto. Qed.

Lemma exec_app ts1 ts2 c :
  exec (ts1 ++ ts2) c = match exec ts1 c with Some c1 => exec ts2 c1 | None => None end.
Proof.
  revert c. induction ts1 as [|t ts1 IH]; intros c; simpl; [reflexivity|].
  destruct (step t c); [apply IH|reflexivity].
Qed.


(** *** The stream can always be driven to its end *)

Lemma handler_ending e c : ending_ (at_ (handler e c)) = true.
Proof.
  unfold handler. destruct (logger_call _ _ c) as [c1|e1 c1]; [reflexivity|].
  pose proof (finally_closed (Some e1) c1) as H.
  destruct (at_ (finally_ (Some e1) c1)); try discriminate; reflexivity.
Qed.

Lemma completed_ending c : ending_ (at_ (completed c)) = true.
Proof.
  unfold completed. destruct (logger_call _ _ c) as [c1|e1 c1]; [reflexivity|].
  apply handler_ending.
Qed.

Lemma after_loop_ending c : done (agent_task c) = true -> ending_ (at_ (after_loop c)) = true.
Proof. intros H. unfold after_loop. rewrite H. apply completed_ending. Qed.

Lemma loop_head_cases c :
  done (agent_task c) = true ->
  (queue c <> [] /\ loop_head c = goto Polling c) \/ ending_ (at_ (loop_head c)) = true.
Proof.
  intros H. unfold loop_head. rewrite H. destruct (queue c); simpl.
  - right. apply after_loop_ending. exact H.
  - left. split; [discriminate|reflexivity].
Qed.

Lemma enter_started c : at_ (enter c) <> Fresh.
Proof.
  assert (E : forall c', ending_ (at_ c') = true -> at_ c' <> Fresh).
  { intros c' H1 H2. rewrite H2 in H1. discriminate. }
  unfold enter. rewrite RegistryProps.add_log_callback_id.
  destruct (negb _).
  - destruct (logger_call _ _ _) as [c1|e1 c1]; [discriminate|].
    apply E, handler_ending.
  - destruct (logger_call _ _ _) as [c1|e1 c1]; [|apply E, handler_ending].
    unfold loop_head. simpl. discriminate.
Qed.

Lemma run_agent_shortens acts e c :
  match agent_task (run_agent acts e c) with
  | Pending rest _ => (length rest < length acts)%nat
  | Finished _ => True
  | NotCreated => False
  end.
Proof.
  revert c. induction acts as [|[lv msg|] acts IH]; intros c; simpl; auto.
  destruct (logger_call lv msg c) as [c1|e1 c1]; simpl; auto.
  specialize (IH c1). destruct (agent_task (run_agent acts e c1)); auto.
Qed.

Lemma agent_runs_out n c acts e :
  agent_task c = Pending acts e -> (length acts <= n)%nat ->
  exists k c',
    exec (replicate k RunAgent) c = Some c'
    /\ done (agent_task c') = true /\ at_ c' = at_ c.
Proof.
  revert c acts e. induction n as [|n IH]; intros c acts e Htask Hlen.
  - exists 1%nat, (run_agent acts e c). simpl. rewrite Htask.
    destruct acts; [|simpl in Hlen; lia]. simpl. auto.
  - pose proof (run_agent_shortens acts e c) as Hshort.
    destruct (run_agent_frame acts e c) as (_&_&_&_&_&Hat&_&_).
    destruct (agent_task (run_agent acts e c)) as [|rest e'|exc] eqn:Hnext.
    + contradiction.
    + destruct (IH (run_agent acts e c) rest e' Hnext ltac:(lia)) as (k & c' & Hex & Hd & Hat').
      exists (S k), c'. simpl. rewrite Htask. split; [exact Hex|]. split; [exact Hd|congruence].
    + exists 1%nat, (run_agent acts e c). simpl. rewrite Htask, Hnext. auto.
Qed.

(** With the agent task finished, delivering what is in the queue leads
    out of the polling loop. *)
Lemma drain n c :
  (length (queue c) <= n)%nat -> at_ c = Polling -> done (agent_task c) = true ->
  exists ts c', (Abandon ∉ ts) /\ exec ts c = Some c' /\ ending_ (at_ c') = true.
Proof.
  revert c. induction n as [|n IH]; intros c Hlen Hat Hdone.
  - exists [Timeout], (after_loop c). simpl. rewrite Hat, Hdone.
    destruct (queue c); [|simpl in Hlen; lia]. simpl.
    split; [|split; [reflexivity|apply after_loop_ending; exact Hdone]].
    intros H. apply list_elem_of_singleton in H. discriminate.
  - destruct (queue c) as [|message q] eqn:Hq.
    + exists [Timeout], (after_loop c). simpl. rewrite Hat, Hdone, Hq. simpl.
      split; [|split; [reflexivity|apply after_loop_ending; exact Hdone]].
      intros H. apply list_elem_of_singleton in H. discriminate.
    + set (c1 := goto YieldedMessage (emit (Frame AtMessage (sse message)) (set_queue q c))).
      assert (Hd1 : done (agent_task c1) = true) by exact Hdone.
      destruct (loop_head_cases c1 Hd1) as [[Hne Hloop]|Hend].
      * destruct (IH (goto Polling c1)) as (ts & c' & Hno & Hex & Hend); simpl; auto.
        { simpl in Hlen. lia. }
        exists (Deliver :: Resume :: ts), c'. simpl. rewrite Hat, Hq. fold c1.
        rewrite Hloop. split; [|split; assumption].
        intros H. apply elem_of_cons in H as [H|H]; [discriminate|].
        apply elem_of_cons in H as [H|H]; [discriminate|]. contradiction.
      * exists [Deliver; Resume], (loop_head c1). simpl. rewrite Hat, Hq. fold c1.
        split; [|split; [reflexivity|exact Hend]].
        intros H. apply elem_of_cons in H as [H|H]; [discriminate|].
        apply list_elem_of_singleton in H. discriminate.
Qed.

Lemma ending_closes c :
  ending_ (at_ c) = true ->
  exists ts c', (Abandon ∉ ts) /\ exec ts c = Some c' /\ closed (at_ c') = true.
Proof.
  intros H. destruct (at_ c) eqn:Hat; try discriminate.
  1-3: exists [Resume], (finally_ None c); simpl; rewrite Hat;
       (split; [|split; [reflexivity|apply finally_closed]]);
       intros H'; apply list_elem_of_singleton in H'; discriminate.
  exists [], c. simpl. rewrite Hat. split; [apply not_elem_of_nil|auto].
Qed.

Lemma chain ts1 ts2 c c1 c2 :
  (Abandon ∉ ts1) -> exec ts1 c = Some c1 ->
  (Abandon ∉ ts2) -> exec ts2 c1 = Some c2 ->
  (Abandon ∉ ts1 ++ ts2) /\ exec (ts1 ++ ts2) c = Some c2.
Proof.
  intros H1 E1 H2 E2. split.
  - rewrite elem_of_app. tauto.
  - rewrite exec_app, E1. exact E2.
Qed.

Lemma polling_closes c :
  at_ c = Polling -> agent_task c <> NotCreated ->
  exists ts c', (Abandon ∉ ts) /\ exec ts c = Some c' /\ closed (at_ c') = true.
Proof.
  intros Hat Htask.
  assert (Hrun : exists ts1 c1, (Abandon ∉ ts1) /\ exec ts1 c = Some c1
                                /\ done (agent_task c1) = true /\ at_ c1 = Polling).
  { destruct (agent_task c) as [|acts e|exc] eqn:Ht.
    - contradiction.
    - destruct (agent_runs_out (length acts) c acts e Ht ltac:(lia)) as (k & c1 & Hex & Hd & Hat1).
      exists (replicate k RunAgent), c1. repeat split; try assumption; [|congruence].
      intros H. apply elem_of_replicate in H as [H _]. discriminate.
    - exists [], c. simpl. rewrite Ht. repeat split; auto. apply not_elem_of_nil. }
  destruct Hrun as (ts1 & c1 & Hno1 & Hex1 & Hd1 & Hat1).
  destruct (drain (length (queue c1)) c1 ltac:(lia) Hat1 Hd1) as (ts2 & c2 & Hno2 & Hex2 & Hend).
  destruct (ending_closes c2 Hend) as (ts3 & c3 & Hno3 & Hex3 & Hcl).
  destruct (chain _ _ _ _ _ Hno1 Hex1 Hno2 Hex2) as [Hno12 Hex12].
  destruct (chain _ _ _ _ _ Hno12 Hex12 Hno3 Hex3) as [Hno Hex].
  eauto.
Qed.

Lemma started_closes c :
  consistent c -> at_ c <> Fresh ->
  exists ts c', (Abandon ∉ ts) /\ exec ts c = Some c' /\ closed (at_ c') = true.
Proof.
  intros [fs Hc] Hstarted. destruct (at_ c) eqn:Hat.
  - contradiction.
  - apply ending_closes. rewrite Hat. reflexivity.
  - apply polling_closes; tauto.
  - destruct Hc as (_ & _ & _ & Htask).
    assert (Hstep : step Resume c = Some (loop_head c)) by (simpl; rewrite Hat; reflexivity).
    unfold loop_head in Hstep.
    destruct (negb (done (agent_task c)) || negb (empty (queue c))) eqn:Hcond.
    + destruct (polling_closes (goto Polling c)) as (ts & c' & Hno & Hex & Hcl); auto.
      exists (Resume :: ts), c'. simpl. simpl in Hstep. rewrite Hstep.
      split; [|auto]. intros H. apply elem_of_cons in H as [H|H]; [discriminate|contradiction].
    + apply orb_false_iff in Hcond as [Hd _]. apply negb_false_iff in Hd.
      destruct (ending_closes (after_loop c) (after_loop_ending c Hd)) as (ts & c' & Hno & Hex & Hcl).
      exists (Resume :: ts), c'. simpl. simpl in Hstep. rewrite Hstep.
      split; [|auto]. intros H. apply elem_of_cons in H as [H|H]; [discriminate|contradiction].
  - contradiction.
  - apply ending_closes. rewrite Hat. reflexivity.
  - apply ending_closes. rewrite Hat. reflexivity.
  - apply ending_closes. rewrite Hat. reflexivity.
Qed.

Lemma always_closes c :
  consistent c ->
  exists ts c', (Abandon ∉ ts) /\ exec ts c = Some c' /\ closed (at_ c') = true.
Proof.
  intros Hc.
  assert (Hcase : at_ c = Fresh \/ at_ c <> Fresh)
    by (destruct (at_ c); auto; right; discriminate).
  destruct Hcase as [Hat|Hat].
  - assert (Hstep : step Resume c = Some (enter c)) by (simpl; rewrite Hat; reflexivity).
    destruct (started_closes (enter c)) as (ts & c' & Hno & Hex & Hcl).
    + eapply step_consistent; eauto.
    + apply enter_started.
    + exists (Resume :: ts), c'. simpl. simpl in Hstep. rewrite Hstep.
      split; [|auto]. intros H. apply elem_of_cons in H as [H|H]; [discriminate|contradiction].
  - apply started_closes; assumption.
Qed.

(** C1. At every point of every run the output consists of frames only,
    followed, exactly when the generator is closed, by the
    unregistration of the connection's observer and then one
    [cleanup()]: so both happen once on every way out, in that order,
    and no frame follows them; a frame of a [yield] other than the one
    of the polling loop has no frame after it; on exit the observer's
    slot holds [None].  And from every such point the run can be driven
    to its end without the consumer giving up. *)
Theorem event_stream_cleanup_order p m g ts c :
  exec ts (spawn p m g) = Some c ->
  (exists fs,
      terminal_last fs
      /\ out c = map as_frame fs ++ closing c
      /\ (closed (at_ c) = true ->
          PyList.getitem (Logger._log_callbacks (globals c)) (callback_id c) = Some None))
  /\ (exists ts' c', (Abandon ∉ ts') /\ exec ts' c = Some c' /\ closed (at_ c') = true).
Proof.
  intros Hexec.
  assert (Hc : consistent c) by (eapply exec_consistent; [apply spawn_consistent|exact Hexec]).
  split; [|apply always_closes; exact Hc].
  destruct Hc as [fs Hc]. unfold closing.
  destruct (at_ c); simpl.
  - exists []. destruct Hc as [Hout _]. rewrite Hout.
    repeat split; [intros i f Hi; discriminate Hi|discriminate].
  - exists fs. rewrite app_nil_r. repeat split; [tauto..|discriminate].
  - exists fs. rewrite app_nil_r.
    repeat split; [apply all_messages_terminal_last; tauto|tauto|discriminate].
  - exists fs. rewrite app_nil_r.
    repeat split; [apply all_messages_terminal_last; tauto|tauto|discriminate].
  - contradiction.
  - exists fs. rewrite app_nil_r. repeat split; [tauto..|discriminate].
  - exists fs. rewrite app_nil_r. repeat split; [tauto..|discriminate].
  - exists fs. repeat split; tauto.
Qed.

Lemma event_stream_cleanup_order_witness :
  exists c,
    exec (Samples.agent_finishes_first) (spawn Samples.hello Samples.two_lines g0) = Some c
    /\ (exists fs,
          terminal_last fs
          /\ out c = map as_frame fs ++ closing c
          /\ (closed (at_ c) = true ->
              PyList.getitem (Logger._log_callbacks (globals c)) (callback_id c) = Some None))
    /\ (exists ts' c', (Abandon ∉ ts') /\ exec ts' c = Some c' /\ closed (at_ c') = true).
Proof.
  eexists. split; [vm_compute; reflexivity|].
  apply (event_stream_cleanup_order Samples.hello Samples.two_lines g0
           Samples.agent_finishes_first).
  vm_compute. reflexivity.
Defined.


(** *** The empty prompt *)

Lemma lstrip_nil s : lstrip s = [] <-> forallb isspace s = true.
Proof.
  induction s as [|x s IH]; simpl; [tauto|].
  destruct (isspace x); simpl; [exact IH|]. split; discriminate.
Qed.

Lemma lstrip_head s x r : lstrip s = x :: r -> isspace x = false.
Proof.
  induction s as [|y s IH]; simpl; [discriminate|].
  destruct (isspace y) eqn:E; [exact IH|]. intros [= -> _]. exact E.
Qed.

(** [not prompt.strip()] holds exactly of the prompts made of white
    space only, the empty one included. *)
Lemma strip_blank s : truthy (strip s) = false <-> forallb isspace s = true.
Proof.
  assert (Htr : forall l : list Z, truthy l = false <-> l = [])
    by (intros [|? ?]; simpl; split; congruence).
  rewrite Htr. unfold strip, rstrip. split.
  - intros H. apply (f_equal (@rev Z)) in H. rewrite rev_involutive in H. simpl in H.
    apply lstrip_nil in H. rewrite forallb_forall in H.
    destruct (lstrip s) as [|x r] eqn:E; [apply lstrip_nil; exact E|].
    apply lstrip_head in E as Hx. rewrite H in Hx; [discriminate|].
    apply in_rev. rewrite rev_involutive. left. reflexivity.
  - intros H. apply lstrip_nil in H. rewrite H. reflexivity.
Qed.

Lemma quiet_well_behaved l msg : quiet l -> Logger.well_behaved truth invoke l msg.
Proof.
  intros Hq [|f] Hin _ g puts; unfold invoke; simpl; [eauto|].
  apply list_elem_of_lookup in Hin as [i Hi]. rewrite (Hq i f msg Hi). simpl. eauto.
Qed.

Lemma quiet_add l : quiet l -> quiet (l ++ [Some Bridge]).
Proof.
  intros Hq i f msg Hi. apply lookup_app_Some in Hi as [Hi|[_ Hi]].
  - eapply Hq; eauto.
  - destruct (i - length l)%nat as [|k]; simpl in Hi; discriminate.
Qed.

Lemma quiet_remove id l l' :
  quiet l -> Logger.remove_log_callback id l = Returned l' -> quiet l'.
Proof.
  intros Hq Hrm.
  destruct (decide (0 <= id < Z.of_nat (length l))) as [H|H].
  - rewrite RegistryProps.remove_in_range in Hrm by exact H. injection Hrm as <-.
    intros i f msg Hi.
    destruct (decide (i = Z.to_nat id)) as [->|Hne].
    + rewrite list_lookup_insert_eq in Hi by lia. discriminate.
    + rewrite list_lookup_insert_ne in Hi by congruence. eapply Hq; eauto.
  - rewrite RegistryProps.remove_out_of_range in Hrm by exact H. injection Hrm as <-. exact Hq.
Qed.

(** With quiet observers a log call returns. *)
Lemma logger_call_quiet lv msg c :
  quiet (Logger._log_callbacks (globals c)) ->
  exists ps, logger_call lv msg c = Returned (set_puts ps c).
Proof.
  intros Hq. unfold logger_call. rewrite DispatchProps.log_logger. cbn [fst].
  destruct (admits _ lv); [|exists (puts c); reflexivity].
  destruct (DispatchProps.fan_out_well_behaved truth invoke _ msg (globals c)
              (S (length (Logger._log_callbacks (globals c)))) (puts c) eq_refl
              (quiet_well_behaved _ msg Hq) ltac:(lia)) as (ps & H & _).
  rewrite H. exists ps. reflexivity.
Qed.

Lemma finally_blank exc c :
  blank_invariant c -> at_ c = YieldedEmpty -> blank_invariant (finally_ exc c).
Proof.
  intros (Hp & Hq & Ht & Hrun) Hat. unfold blank_run in Hrun. rewrite Hat in Hrun.
  unfold finally_.
  destruct (RegistryProps.remove_returns (callback_id c) (Logger._log_callbacks (globals c)))
    as (l' & Hrm & _).
  rewrite Hrm. unfold blank_invariant, blank_run. simpl. rewrite Hrun.
  repeat split; try assumption. eapply quiet_remove; eauto.
Qed.

Lemma enter_blank c :
  blank_invariant c -> at_ c = Fresh ->
  blank_invariant (enter c) /\ at_ (enter c) = YieldedEmpty.
Proof.
  intros (Hp & Hq & Ht & Hrun) Hat. unfold blank_run in Hrun. rewrite Hat in Hrun.
  unfold enter. rewrite RegistryProps.add_log_callback_id.
  set (c1 := set_callback_id _ (set_callbacks _ (set_queue [] c))).
  assert (Hq1 : quiet (Logger._log_callbacks (globals c1))) by (apply quiet_add; exact Hq).
  replace (truthy (strip (prompt c1))) with false
    by (symmetry; apply strip_blank; exact Hp).
  simpl. destruct (logger_call_quiet WARNING "Empty prompt provided." c1 Hq1) as [ps ->].
  unfold blank_invariant, blank_run. simpl. rewrite Hrun. auto.
Qed.

Lemma step_blank t c c' : blank_invariant c -> step t c = Some c' -> blank_invariant c'.
Proof.
  intros Hinv Hstep. pose proof Hinv as (Hp & Hq & Ht & Hrun).
  unfold blank_run in Hrun. destruct t; simpl in Hstep.
  - destruct (at_ c) eqn:Hat; try discriminate; try contradiction; injection Hstep as <-.
    + apply enter_blank; assumption.
    + apply finally_blank; assumption.
  - destruct (at_ c) eqn:Hat; simpl in Hstep; try discriminate; try contradiction.
    injection Hstep as <-. apply finally_blank; assumption.
  - destruct (at_ c); try discriminate; contradiction.
  - destruct (at_ c); try discriminate; contradiction.
  - destruct (at_ c); try discriminate; contradiction.
  - destruct (puts c); try discriminate. injection Hstep as <-. exact Hinv.
  - rewrite Ht in Hstep. discriminate.
Qed.

Lemma exec_blank ts c c' : blank_invariant c -> exec ts c = Some c' -> blank_invariant c'.
Proof.
  revert c. induction ts as [|t ts IH]; intros c Hc Hexec; simpl in Hexec.
  - injection Hexec as <-. exact Hc.
  - destruct (step t c) as [c1|] eqn:Hstep; [|discriminate].
    eapply IH; [eapply step_blank; eauto|exact Hexec].
Qed.

(** C3, amended. For a prompt that is empty or white space only, with
    no registered callable raising: [agent.run] is never started; the
    only frame ever sent is [data: Empty prompt provided.]; two
    requests for a frame end the stream; and when the stream has ended
    the output is that frame, the unregistration of the observer and
    one [cleanup()] of the agent object, which was created before the
    prompt was looked at. *)
Theorem empty_prompt_single_frame p m g ts c :
  forallb isspace p = true ->
  quiet (Logger._log_callbacks g) ->
  exec ts (spawn p m g) = Some c ->
  agent_task c = NotCreated
  /\ blank_run c
  /\ (closed (at_ c) = true ->
      out c = [Frame AtEmpty (sse "Empty prompt provided.");
               Unregistered (callback_id c); CleanedUp])
  /\ exists c', exec [Resume; Resume] (spawn p m g) = Some c' /\ closed (at_ c') = true.
Proof.
  intros Hp Hq Hexec.
  assert (H0 : blank_invariant (spawn p m g)).
  { unfold blank_invariant, blank_run. simpl. auto. }
  pose proof (exec_blank _ _ _ H0 Hexec) as (_ & _ & Ht & Hrun).
  repeat split; try assumption.
  - unfold blank_run in Hrun. destruct (at_ c); try discriminate. intros _. exact Hrun.
  - destruct (enter_blank (spawn p m g) H0 eq_refl) as [_ Hat].
    exists (finally_ None (enter (spawn p m g))).
    split; [|apply finally_closed].
    cbn [exec]. change (step Resume (spawn p m g)) with (Some (enter (spawn p m g))).
    cbn [step]. rewrite Hat. reflexivity.
Qed.


Lemma empty_prompt_single_frame_witness :
  forallb isspace Samples.blank = true
  /\ quiet (Logger._log_callbacks g0)
  /\ exists c,
      exec [Resume; Resume] (spawn Samples.blank Samples.silent g0) = Some c
      /\ agent_task c = NotCreated
      /\ blank_run c
      /\ (closed (at_ c) = true ->
          out c = [Frame AtEmpty (sse "Empty prompt provided.");
                   Unregistered (callback_id c); CleanedUp])
      /\ exists c', exec [Resume; Resume] (spawn Samples.blank Samples.silent g0) = Some c'
                    /\ closed (at_ c') = true.
Proof.
  assert (Hq : quiet (Logger._log_callbacks g0)).
  { intros i f msg H. simpl in H. discriminate H. }
  split; [reflexivity|]. split; [exact Hq|].
  eexists. split; [vm_compute; reflexivity|].
  apply (empty_prompt_single_frame Samples.blank Samples.silent g0 [Resume; Resume]);
    [reflexivity|exact Hq|vm_compute; reflexivity].
Defined.

(** C3, as stated, fails: on the prompt of three spaces the agent
    object is cleaned up although its [run] was never started. *)
Lemma empty_prompt_cleanup_counterexample :
  exists c,
    exec [Resume; Resume] (spawn Samples.blank Samples.silent g0) = Some c
    /\ agent_task c = NotCreated
    /\ at_ c = Closed None
    /\ out c = [Frame AtEmpty (sse "Empty prompt provided."); Unregistered 0; CleanedUp].
Proof. eexists. split; [vm_compute; reflexivity|]. repeat split. Qed.

(** *** Runs in which the agent finishes with puts still pending *)

(** C4, on the code: the agent logs two lines and returns in the turn
    before the generator is resumed; the client receives two frames,
    not four, and the two lines are left in [queue.put] tasks that
    nothing waits for. *)
Theorem two_lines_not_delivered :
  exists c,
    exec Samples.agent_finishes_first (spawn Samples.hello Samples.two_lines g0) = Some c
    /\ at_ c = Closed None
    /\ agent_task c = Finished None
    /\ frames (out c) = [(AtMessage, sse "Processing your request...");
                         (AtCompleted, sse "Request processing completed.")]
    /\ queue c = []
    /\ puts c = ["line1"; "line2"; "Request processing completed."].
Proof. eexists. split; [vm_compute; reflexivity|]. repeat split. Qed.

(** C5, on the code: of the messages m1, m2, m3 logged by the agent the
    client receives m1 only; the completed frame is sent while the
    puts of m2 and m3 are pending and the queue looks empty. *)
Theorem last_messages_lost :
  exists c,
    exec Samples.agent_finishes_between
      (spawn Samples.hello Samples.three_messages g0) = Some c
    /\ at_ c = Closed None
    /\ agent_task c = Finished None
    /\ frames (out c) = [(AtMessage, sse "Processing your request...");
                         (AtMessage, sse "m1");
                         (AtCompleted, sse "Request processing completed.")]
    /\ queue c = []
    /\ puts c = ["m2"; "m3"; "Request processing completed."].
Proof. eexists. split; [vm_compute; reflexivity|]. repeat split. Qed.

(** *** Order of delivery *)

Lemma sweep_appends l msg ps :
  exists extra, store_of (Logger.sweep truth effect l msg ps) = ps ++ extra.
Proof.
  revert ps. induction l as [|[[|f]|] l IH]; intros ps; simpl.
  - exists []. rewrite app_nil_r. reflexivity.
  - destruct (IH (ps ++ [msg])) as [extra H]. exists (msg :: extra).
    rewrite H, <- app_assoc. reflexivity.
  - destruct (f msg); [|apply IH]. exists []. simpl. rewrite app_nil_r. reflexivity.
  - apply IH.
Qed.

Lemma logger_call_appends lv msg c :
  exists extra, store_of (logger_call lv msg c) = set_puts (puts c ++ extra) c.
Proof.
  rewrite logger_call_sweep.
  destruct (admits _ lv).
  - destruct (sweep_appends (Logger._log_callbacks (globals c)) msg (puts c)) as [extra H].
    exists extra. destruct (Logger.sweep _ _ _ _ _); simpl in *; rewrite H; reflexivity.
  - exists []. simpl. rewrite app_nil_r. reflexivity.
Qed.

Lemma extends_refl c : extends c c.
Proof. exists []. rewrite app_nil_r. reflexivity. Qed.

Lemma extends_trans c1 c2 c3 : extends c1 c2 -> extends c2 c3 -> extends c1 c3.
Proof.
  intros [t1 H1] [t2 H2]. exists (t1 ++ t2). rewrite H2, H1, app_assoc. reflexivity.
Qed.

Lemma extends_puts c extra : extends c (set_puts (puts c ++ extra) c).
Proof.
  exists (map sse extra). unfold pipeline. simpl.
  rewrite map_app, !app_assoc. reflexivity.
Qed.

Lemma extends_logger_call lv msg c : extends c (store_of (logger_call lv msg c)).
Proof. destruct (logger_call_appends lv msg c) as [extra ->]. apply extends_puts. Qed.

Lemma extends_same c c' :
  out c' = out c -> queue c' = queue c -> puts c' = puts c -> extends c c'.
Proof.
  intros Ho Hq Hp. exists []. unfold pipeline. rewrite Ho, Hq, Hp, app_nil_r. reflexivity.
Qed.

Lemma extends_emit c e :
  match e with Frame AtMessage _ => False | _ => True end -> extends c (emit e c).
Proof.
  intros He. exists []. unfold pipeline, frames. simpl. rewrite !omap_app, app_nil_r.
  destruct e as [[] t| |]; try contradiction; simpl; rewrite app_nil_r; reflexivity.
Qed.

Lemma extends_finally exc c : extends c (finally_ exc c).
Proof.
  unfold finally_. destruct (Logger.remove_log_callback _ _) as [l|e l].
  - eapply extends_trans; [|apply (extends_same (emit CleanedUp (emit (Unregistered (callback_id c)) (set_callbacks l c)))); reflexivity].
    eapply extends_trans; [apply (extends_same c (set_callbacks l c)); reflexivity|].
    eapply extends_trans; apply extends_emit; exact I.
  - apply extends_same; reflexivity.
Qed.

Lemma extends_handler e c : extends c (handler e c).
Proof.
  unfold handler.
  pose proof (extends_logger_call ERROR (String.append "An error occurred: " e) c) as H.
  destruct (logger_call _ _ c) as [c1|e1 c1]; simpl in H.
  - eapply extends_trans; [exact H|].
    eapply extends_trans; [apply extends_emit|apply extends_same; reflexivity]. exact I.
  - eapply extends_trans; [exact H|apply extends_finally].
Qed.

Lemma extends_completed c : extends c (completed c).
Proof.
  unfold completed.
  pose proof (extends_logger_call INFO "Request processing completed." c) as H.
  destruct (logger_call _ _ c) as [c1|e1 c1]; simpl in H.
  - eapply extends_trans; [exact H|].
    eapply extends_trans; [apply extends_emit|apply extends_same; reflexivity]. exact I.
  - eapply extends_trans; [exact H|apply extends_handler].
Qed.

Lemma extends_after_loop c : extends c (after_loop c).
Proof.
  unfold after_loop. destruct (negb _); [apply extends_same; reflexivity|apply extends_completed].
Qed.

Lemma extends_loop_head c : extends c (loop_head c).
Proof.
  unfold loop_head. destruct (_ || _); [apply extends_same; reflexivity|apply extends_after_loop].
Qed.

Lemma extends_run_agent acts e c : extends c (run_agent acts e c).
Proof.
  revert c. induction acts as [|[lv msg|] acts IH]; intros c; simpl.
  - apply extends_same; reflexivity.
  - pose proof (extends_logger_call lv msg c) as H.
    destruct (logger_call lv msg c) as [c1|e1 c1]; simpl in H.
    + eapply extends_trans; [exact H|apply IH].
    + eapply extends_trans; [exact H|apply extends_same; reflexivity].
  - apply extends_same; reflexivity.
Qed.

(** Once the generator has started, no turn of the event loop reorders,
    repeats or removes a message of the pipeline: the frames sent by the
    polling loop are at every moment an initial part of the messages
    put towards the queue, in the order of the log calls. *)
Lemma step_extends t c c' : at_ c <> Fresh -> step t c = Some c' -> extends c c'.
Proof.
  intros Hstarted Hstep. destruct t; simpl in Hstep.
  - destruct (at_ c); try discriminate; try contradiction; injection Hstep as <-;
      auto using extends_finally, extends_loop_head.
  - destruct (thrown_in (at_ c)); try discriminate. injection Hstep as <-.
    apply extends_finally.
  - destruct (at_ c); try discriminate.
    destruct (queue c) as [|message q] eqn:Hq; try discriminate. injection Hstep as <-.
    exists []. unfold pipeline, frames. simpl. rewrite Hq, !omap_app, app_nil_r. simpl.
    rewrite <- app_assoc. reflexivity.
  - destruct (at_ c); try discriminate. injection Hstep as <-.
    destruct (_ && _); auto using extends_after_loop, extends_loop_head.
  - destruct (at_ c); try discriminate.
    destruct (agent_task c) as [| |[e|]]; try discriminate; injection Hstep as <-;
      auto using extends_handler, extends_completed.
  - destruct (puts c) as [|message ps] eqn:Hp; try discriminate. injection Hstep as <-.
    exists []. unfold pipeline. simpl. rewrite Hp, map_app, app_nil_r. simpl.
    rewrite <- !app_assoc. reflexivity.
  - destruct (agent_task c) as [|acts e|]; try discriminate. injection Hstep as <-.
    apply extends_run_agent.
Qed.

Lemma after_loop_started c : at_ (after_loop c) <> Fresh.
Proof.
  unfold after_loop. destruct (negb _); [discriminate|].
  pose proof (completed_ending c) as H. intros E. rewrite E in H. discriminate.
Qed.

Lemma loop_head_started c : at_ (loop_head c) <> Fresh.
Proof.
  unfold loop_head. destruct (_ || _); [discriminate|apply after_loop_started].
Qed.

Lemma step_started t c c' : at_ c <> Fresh -> step t c = Some c' -> at_ c' <> Fresh.
Proof.
  assert (E : forall c0, ending_ (at_ c0) = true -> at_ c0 <> Fresh).
  { intros c0 H1 H2. rewrite H2 in H1. discriminate. }
  assert (F : forall exc c0, at_ (finally_ exc c0) <> Fresh).
  { intros exc c0 H. pose proof (finally_closed exc c0) as Hc. rewrite H in Hc. discriminate. }
  intros Hstarted Hstep. destruct t; simpl in Hstep.
  - destruct (at_ c); try discriminate; try contradiction; injection Hstep as <-;
      auto using loop_head_started.
  - destruct (thrown_in (at_ c)); try discriminate. injection Hstep as <-. apply F.
  - destruct (at_ c); try discriminate. destruct (queue c); try discriminate.
    injection Hstep as <-. discriminate.
  - destruct (at_ c); try discriminate. injection Hstep as <-.
    destruct (_ && _); auto using after_loop_started, loop_head_started.
  - destruct (at_ c); try discriminate.
    destruct (agent_task c) as [| |[e|]]; try discriminate; injection Hstep as <-;
      auto using handler_ending, completed_ending.
  - destruct (puts c); try discriminate. injection Hstep as <-. exact Hstarted.
  - destruct (agent_task c) as [|acts e|]; try discriminate. injection Hstep as <-.
    destruct (run_agent_frame acts e c) as (_&_&_&_&_&Hat&_&_). rewrite Hat. exact Hstarted.
Qed.

(** What the polling loop has sent is, at every later moment, an
    initial part of the pipeline. *)
Lemma exec_extends ts c c' : at_ c <> Fresh -> exec ts c = Some c' -> extends c c'.
Proof.
  revert c. induction ts as [|t ts IH]; intros c Hs Hexec; simpl in Hexec.
  - injection Hexec as <-. apply extends_refl.
  - destruct (step t c) as [c1|] eqn:Hstep; [|discriminate].
    eapply extends_trans; [eapply step_extends; eauto|].
    apply IH; [eapply step_started; eauto|exact Hexec].
Qed.

(** *** A failing agent *)

(** [await agent_task] is never reached: the loop is left only when the
    task is done. *)
Lemma await_agent_unreachable p m g ts c :
  exec ts (spawn p m g) = Some c -> at_ c <> AwaitingAgent.
Proof.
  intros Hexec Hat.
  assert (Hc : consistent c) by (eapply exec_consistent; [apply spawn_consistent|exact Hexec]).
  destruct Hc as [fs Hc]. rewrite Hat in Hc. exact Hc.
Qed.

(** With quiet observers every log call returns, so the [except] block
    could only be entered from [await agent_task]; hence no frame ever
    comes from it, whatever the agent run does. *)
Lemma no_error_frame_ext c c' :
  globals c' = globals c -> out c' = out c -> no_error_frame c -> no_error_frame c'.
Proof. intros Hg Hout [Hq Hf]. unfold no_error_frame. rewrite Hg, Hout. auto. Qed.

Lemma no_error_frame_emit c s t :
  s <> AtError -> no_error_frame c -> no_error_frame (emit (Frame s t) c).
Proof.
  intros Hs [Hq Hf]. split; [exact Hq|]. simpl. unfold frames. rewrite omap_app.
  apply Forall_app. split; [exact Hf|]. simpl. repeat constructor. exact Hs.
Qed.

Lemma finally_no_error exc c : no_error_frame c -> no_error_frame (finally_ exc c).
Proof.
  intros [Hq Hf]. unfold finally_.
  destruct (RegistryProps.remove_returns (callback_id c) (Logger._log_callbacks (globals c)))
    as (l' & Hrm & _).
  rewrite Hrm. split; simpl.
  - eapply quiet_remove; eauto.
  - unfold frames. rewrite <- app_assoc, omap_app. simpl. rewrite app_nil_r. exact Hf.
Qed.

Lemma completed_no_error c : no_error_frame c -> no_error_frame (completed c).
Proof.
  intros H. unfold completed.
  destruct (logger_call_quiet INFO "Request processing completed." c (proj1 H)) as [ps ->].
  apply (no_error_frame_ext (emit (Frame AtCompleted (sse "Request processing completed."))
                               (set_puts ps c))); try reflexivity.
  apply no_error_frame_emit; [discriminate|]. exact H.
Qed.

Lemma after_loop_no_error c : no_error_frame c -> no_error_frame (after_loop c).
Proof.
  intros H. unfold after_loop. destruct (negb _); [exact H|apply completed_no_error; exact H].
Qed.

Lemma loop_head_no_error c : no_error_frame c -> no_error_frame (loop_head c).
Proof.
  intros H. unfold loop_head. destruct (_ || _); [exact H|apply after_loop_no_error; exact H].
Qed.

Lemma enter_no_error c : no_error_frame c -> no_error_frame (enter c).
Proof.
  intros [Hq Hf]. unfold enter. rewrite RegistryProps.add_log_callback_id.
  set (c1 := set_callback_id _ (set_callbacks _ (set_queue [] c))).
  assert (H1 : no_error_frame c1) by (split; [apply quiet_add; exact Hq|exact Hf]).
  destruct (negb _).
  - destruct (logger_call_quiet WARNING "Empty prompt provided." c1 (proj1 H1)) as [ps ->].
    apply (no_error_frame_ext (emit (Frame AtEmpty (sse "Empty prompt provided."))
                                 (set_puts ps c1))); try reflexivity.
    apply no_error_frame_emit; [discriminate|]. exact H1.
  - destruct (logger_call_quiet INFO "Processing your request..." c1 (proj1 H1)) as [ps ->].
    apply loop_head_no_error. exact H1.
Qed.

Lemma step_no_error t c c' :
  consistent c -> no_error_frame c -> step t c = Some c' -> no_error_frame c'.
Proof.
  intros [fs Hc] H Hstep. destruct t; simpl in Hstep.
  - destruct (at_ c); try discriminate; injection Hstep as <-;
      auto using enter_no_error, finally_no_error, loop_head_no_error.
  - destruct (thrown_in (at_ c)); try discriminate. injection Hstep as <-.
    apply finally_no_error. exact H.
  - destruct (at_ c); try discriminate.
    destruct (queue c) as [|message q] eqn:Hq; try discriminate.
    injection Hstep as <-.
    apply (no_error_frame_ext (emit (Frame AtMessage (sse message)) c)); try reflexivity.
    apply no_error_frame_emit; [discriminate|exact H].
  - destruct (at_ c); try discriminate. injection Hstep as <-.
    destruct (_ && _); auto using after_loop_no_error, loop_head_no_error.
  - destruct (at_ c); try discriminate. contradiction.
  - destruct (puts c); try discriminate. injection Hstep as <-.
    apply (no_error_frame_ext c); auto.
  - destruct (agent_task c) as [|acts e|]; try discriminate. injection Hstep as <-.
    destruct (run_agent_frame acts e c) as (_&_&Hg&_&_&_&Hout&_).
    apply (no_error_frame_ext c); auto.
Qed.

Lemma error_frame_never_sent p m g ts c :
  quiet (Logger._log_callbacks g) ->
  exec ts (spawn p m g) = Some c ->
  Forall (fun f => fst f <> AtError) (frames (out c)).
Proof.
  intros Hq Hexec.
  assert (H0 : consistent (spawn p m g) /\ no_error_frame (spawn p m g)).
  { split; [apply spawn_consistent|]. split; [exact Hq|constructor]. }
  revert H0 Hexec. generalize (spawn p m g) as c0.
  induction ts as [|t ts IH]; intros c0 [Hc H] Hexec; simpl in Hexec.
  - injection Hexec as <-. apply H.
  - destruct (step t c0) as [c1|] eqn:Hstep; [|discriminate].
    apply (IH c1); [|exact Hexec].
    split; [eapply step_consistent; eauto|eapply step_no_error; eauto].
Qed.

(** C8, on the code: the agent run raises; the exception stays in the
    finished task, no frame of the [except] block is sent, the client
    receives the completed frame, and [cleanup()] is called. *)
Theorem agent_failure_not_reported :
  exists c,
    exec Samples.agent_finishes_first (spawn Samples.hello Samples.failing g0) = Some c
    /\ at_ c = Closed None
    /\ agent_task c = Finished (Some "boom")
    /\ out c = [Frame AtMessage (sse "Processing your request...");
                Frame AtCompleted (sse "Request processing completed.");
                Unregistered 0; CleanedUp].
Proof. eexists. split; [vm_compute; reflexivity|]. repeat split. Qed.

(** *** Two runs for comparison *)

(** When every pending put runs before the generator is resumed, the
    two lines of the agent arrive between the first and the last frame. *)
Example two_lines_delivered_when_puts_run_first :
  exists c,
    exec [Resume; RunAgent; RunPut; RunPut; RunPut;
          Deliver; Resume; Deliver; Resume; Deliver; Resume; Resume]
      (spawn Samples.hello Samples.two_lines g0) = Some c
    /\ at_ c = Closed None
    /\ frames (out c) = [(AtMessage, sse "Processing your request...");
                         (AtMessage, sse "line1");
                         (AtMessage, sse "line2");
                         (AtCompleted, sse "Request processing completed.")].
Proof. eexists. split; [vm_compute; reflexivity|]. repeat split. Qed.

(** An observer that raises on the first message of the driver sends
    the generator into its [except] block, and the text of the
    exception goes to the client. *)
Example observer_failure_reaches_client :
  exists c,
    exec [Resume; Resume]
      (spawn Samples.hello Samples.silent (Samples.with_slots [Some Samples.picky]))
    = Some c
    /\ at_ c = Closed None
    /\ agent_task c = NotCreated
    /\ out c = [Frame AtError (sse "An error occurred: boom"); Unregistered 1; CleanedUp].
Proof. eexists. split; [vm_compute; reflexivity|]. repeat split. Qed.

End DriverProps.

(** * Further properties

    ** The registry and the configuration as their callers use them *)

Module LoggerMore.

Import Loguru.

Section Slots.

Context {callback W : Type}.
Variable truth : callback -> bool.
Variable invoke : callback -> string -> Logger.globals (callback := callback) * W
                  -> outcome (Logger.globals (callback := callback) * W).
Implicit Types (l pre post : list (option callback)) (id : Z) (cb : callback) (w : W)
         (g : Logger.globals (callback := callback)).

(** X1. Registration can be read back: the slot named by the returned
    id holds the callable just registered, the list is one slot longer,
    and every slot that existed before holds what it held. *)
Theorem add_log_callback_lookup cb l :
  PyList.getitem (fst (Logger.add_log_callback cb l)) (snd (Logger.add_log_callback cb l))
  = Some (Some cb)
  /\ length (fst (Logger.add_log_callback cb l)) = S (length l)
  /\ forall j : nat, (j < length l)%nat -> fst (Logger.add_log_callback cb l) !! j = l !! j.
Proof.
  rewrite RegistryProps.add_log_callback_id. simpl. repeat split.
  - unfold PyList.getitem.
    rewrite RegistryProps.index_in_range by (rewrite length_app; simpl; lia).
    rewrite Nat2Z.id. rewrite lookup_app_r by lia.
    replace (length l - length l)%nat with 0%nat by lia. reflexivity.
  - rewrite length_app. simpl. lia.
  - intros j Hj. apply lookup_app_l. exact Hj.
Qed.

Lemma active_app_slots (pre post : list (option callback)) :
  Logger.active (pre ++ post) = Logger.active pre ++ Logger.active post.
Proof. unfold Logger.active. apply omap_app. Qed.

(** The slots around a handle that names a callable. *)
Lemma getitem_split id l cb :
  0 <= id ->
  PyList.getitem l id = Some (Some cb) ->
  exists pre post,
    l = pre ++ Some cb :: post
    /\ Z.of_nat (length pre) = id
    /\ Logger.remove_log_callback id l = Returned (pre ++ None :: post).
Proof.
  intros Hpos Hget. unfold PyList.getitem in Hget.
  destruct (PyList.index l id) as [k|] eqn:Hidx; [|discriminate].
  assert (Hk : k = Z.to_nat id /\ id < Z.of_nat (length l)).
  { unfold PyList.index in Hidx.
    destruct ((0 <=? id) && (id <? Z.of_nat (length l))) eqn:E.
    - injection Hidx as <-. apply andb_true_iff in E as [_ E]. split; [reflexivity|lia].
    - destruct ((- Z.of_nat (length l) <=? id) && (id <? 0)) eqn:E2; [|discriminate].
      apply andb_true_iff in E2 as [_ E2]. lia. }
  destruct Hk as [-> Hlt].
  pose proof (take_drop_middle l (Z.to_nat id) (Some cb) Hget) as Hsplit.
  assert (Hlen : length (take (Z.to_nat id) l) = Z.to_nat id).
  { rewrite length_take. lia. }
  remember (take (Z.to_nat id) l) as pre eqn:Hpre.
  remember (drop (S (Z.to_nat id)) l) as post eqn:Hpost.
  clear Hpre Hpost. subst l.
  exists pre, post. repeat split.
  - lia.
  - rewrite RegistryProps.remove_in_range by lia.
    f_equal. rewrite insert_app_r_alt by lia.
    rewrite Hlen, Nat.sub_diag. reflexivity.
Qed.

(** X2. Unregistering an active handle takes exactly that one callable
    out of the dispatch: the slots before and after it stay where they
    are and the slot itself becomes [None]; with callables that return
    and leave the registry alone, the loop of [_intercept_message] over
    the list as it was calls the callables of the slots before it that
    are true under [if callback:], then this one if it is true, then
    those of the slots after it, and over the list after the
    unregistration it calls the same ones in the same order without
    this occurrence. *)
Theorem remove_log_callback_active id g cb msg w fuel :
  0 <= id ->
  PyList.getitem (Logger._log_callbacks g) id = Some (Some cb) ->
  Logger.well_behaved truth invoke (Logger._log_callbacks g) msg ->
  (length (Logger._log_callbacks g) < fuel)%nat ->
  exists pre post,
    Logger._log_callbacks g = pre ++ Some cb :: post
    /\ Z.of_nat (length pre) = id
    /\ Logger.remove_log_callback id (Logger._log_callbacks g) = Returned (pre ++ None :: post)
    /\ Logger.active (Logger._log_callbacks g) = Logger.active pre ++ cb :: Logger.active post
    /\ Logger.active (pre ++ None :: post) = Logger.active pre ++ Logger.active post
    /\ (exists w1,
          Logger.fan_out truth (Logger.noting invoke) fuel 0 msg (g, (w, []))
          = Some (Returned
                    (g, (w1, Logger.noted
                               (Logger.called truth pre
                                ++ (if truth cb then [cb] else [])
                                ++ Logger.called truth post) msg))))
    /\ (exists w2,
          Logger.fan_out truth (Logger.noting invoke) fuel 0 msg
            (Logger.with_callbacks (pre ++ None :: post) g, (w, []))
          = Some (Returned
                    (Logger.with_callbacks (pre ++ None :: post) g,
                     (w2, Logger.noted
                            (Logger.called truth pre ++ Logger.called truth post) msg)))).
Proof.
  intros Hpos Hget Hwb Hfuel.
  destruct (getitem_split id _ cb Hpos Hget) as (pre & post & Hl & Hlen & Hrm).
  exists pre, post. rewrite Hl in *.
  split; [reflexivity|]. split; [exact Hlen|]. split; [exact Hrm|].
  split; [rewrite active_app_slots; reflexivity|].
  split; [rewrite active_app_slots; reflexivity|].
  split.
  - destruct (DispatchProps.fan_out_well_behaved truth invoke _ msg g fuel w Hl Hwb Hfuel)
      as (w1 & _ & H). exists w1. rewrite (H []). simpl.
    assert (Hc : Logger.called truth (pre ++ Some cb :: post)
                 = Logger.called truth pre ++ (if truth cb then [cb] else [])
                   ++ Logger.called truth post).
    { rewrite DispatchProps.called_app. f_equal.
      unfold Logger.called, Logger.active. simpl. destruct (truth cb); reflexivity. }
    rewrite Hc. reflexivity.
  - assert (Hwb' : Logger.well_behaved truth invoke (pre ++ None :: post) msg).
    { intros cb' Hin. apply Hwb. apply elem_of_app in Hin as [Hin|Hin].
      - apply elem_of_app. left. exact Hin.
      - apply elem_of_cons in Hin as [Hin|Hin]; [discriminate|].
        apply elem_of_app. right. right. exact Hin. }
    destruct (DispatchProps.fan_out_well_behaved truth invoke (pre ++ None :: post) msg
                (Logger.with_callbacks (pre ++ None :: post) g) fuel w eq_refl Hwb'
                ltac:(rewrite length_app in *; simpl in *; lia))
      as (w2 & _ & H). exists w2. rewrite (H []). simpl.
    rewrite DispatchProps.called_app. reflexivity.
Qed.

(** X3. The life of one observer leaves no trace in dispatch: after
    [add_log_callback] and [remove_log_callback] of the returned id the
    list is the old one with a [None] slot at its end, and a dispatch
    over it does what a dispatch over the old list does; the callable
    registered in between is not called.  The callables of the old list
    are taken not to look at the registry. *)
Theorem add_then_remove_restores_dispatch pure cb g msg w fuel :
  Logger.plain invoke pure (Logger._log_callbacks g) ->
  (S (length (Logger._log_callbacks g)) < fuel)%nat ->
  Logger.remove_log_callback (snd (Logger.add_log_callback cb (Logger._log_callbacks g)))
    (fst (Logger.add_log_callback cb (Logger._log_callbacks g)))
  = Returned (Logger._log_callbacks g ++ [None])
  /\ Logger.active (Logger._log_callbacks g ++ [None]) = Logger.active (Logger._log_callbacks g)
  /\ exists o,
      Logger.fan_out truth invoke fuel 0 msg (g, w) = Some (Logger.lift g o)
      /\ Logger.fan_out truth invoke fuel 0 msg
           (Logger.with_callbacks (Logger._log_callbacks g ++ [None]) g, w)
         = Some (Logger.lift (Logger.with_callbacks (Logger._log_callbacks g ++ [None]) g) o).
Proof.
  intros Hpl Hfuel.
  rewrite RegistryProps.add_log_callback_id. simpl.
  set (l := Logger._log_callbacks g) in *.
  assert (Hact : Logger.active (l ++ [None]) = Logger.active l).
  { rewrite active_app_slots. simpl. apply app_nil_r. }
  repeat split.
  - rewrite RegistryProps.remove_in_range by (rewrite length_app; simpl; lia).
    rewrite Nat2Z.id. f_equal.
    replace (length l) with (length l + 0)%nat at 1 by lia.
    rewrite insert_app_r. reflexivity.
  - exact Hact.
  - exists (Logger.sweep truth pure l msg w). split.
    + apply DispatchProps.fan_out_plain; [reflexivity|exact Hpl|lia].
    + assert (Hpl' : Logger.plain invoke pure (l ++ [None])).
      { intros cb' Hin. apply Hpl. apply elem_of_app in Hin as [Hin|Hin]; [exact Hin|].
        apply list_elem_of_singleton in Hin. discriminate. }
      rewrite (DispatchProps.fan_out_plain truth invoke pure (l ++ [None]) msg
                 (Logger.with_callbacks (l ++ [None]) g) fuel w eq_refl Hpl'
                 ltac:(rewrite length_app; simpl; lia)).
      rewrite (DispatchProps.sweep_active truth pure (l ++ [None])), Hact,
        <- DispatchProps.sweep_active. reflexivity.
Qed.

(** X4. Unregistrations can be made in any order: removing two handles
    one way round or the other gives the same list, and neither call
    raises. *)
Theorem remove_log_callback_commutes id1 id2 l :
  exists l1 l2 l12,
    Logger.remove_log_callback id1 l = Returned l1
    /\ Logger.remove_log_callback id2 l = Returned l2
    /\ Logger.remove_log_callback id2 l1 = Returned l12
    /\ Logger.remove_log_callback id1 l2 = Returned l12.
Proof.
  destruct (decide (0 <= id1 < Z.of_nat (length l))) as [H1|H1];
    destruct (decide (0 <= id2 < Z.of_nat (length l))) as [H2|H2].
  - exists (<[Z.to_nat id1 := None]> l), (<[Z.to_nat id2 := None]> l),
      (<[Z.to_nat id2 := None]> (<[Z.to_nat id1 := None]> l)).
    rewrite !RegistryProps.remove_in_range by (rewrite ?length_insert; lia).
    repeat split. f_equal.
    destruct (decide (Z.to_nat id1 = Z.to_nat id2)) as [E|E].
    + rewrite E. reflexivity.
    + apply list_insert_insert_ne. exact E.
  - exists (<[Z.to_nat id1 := None]> l), l, (<[Z.to_nat id1 := None]> l).
    rewrite (RegistryProps.remove_in_range id1 l) by lia.
    rewrite (RegistryProps.remove_out_of_range id2 l) by lia.
    rewrite (RegistryProps.remove_out_of_range id2) by (rewrite length_insert; lia).
    repeat split.
  - exists l, (<[Z.to_nat id2 := None]> l), (<[Z.to_nat id2 := None]> l).
    rewrite (RegistryProps.remove_in_range id2 l) by lia.
    rewrite (RegistryProps.remove_out_of_range id1 l) by lia.
    rewrite (RegistryProps.remove_out_of_range id1) by (rewrite length_insert; lia).
    repeat split.
  - exists l, l, l.
    rewrite (RegistryProps.remove_out_of_range id1 l) by lia.
    rewrite (RegistryProps.remove_out_of_range id2 l) by lia.
    repeat split.
Qed.


(** The handlers that one call of [define_log_level] installs. *)
Lemma define_log_level_handlers root p f name date (g : Logger.globals (callback := callback)) :
  Logger.handlers (fst (Logger.define_log_level (W := W) root p f name date g))
  = [ {| h_sink := Stderr; h_level := p |};
      {| h_sink := File (String.append root
                           (String.append "/logs/"
                              (String.append (Logger.log_name name date) ".log")));
         h_level := f |} ].
Proof. reflexivity. Qed.

Lemma reconfigured_snoc root rcs rc (g : Logger.globals (callback := callback)) :
  Logger.reconfigured (W := W) root (rcs ++ [rc]) g
  = fst (Logger.reconfigure (W := W) root (Logger.reconfigured (W := W) root rcs g) rc).
Proof. unfold Logger.reconfigured. rewrite fold_left_app. reflexivity. Qed.

(** X5. Destinations do not pile up: after any sequence of calls of
    [define_log_level], whatever handlers existed before, there are
    exactly two handlers, standard error at the print level and the log
    file at the file level of the last call; [_print_level] is that of
    the last call and the registered observers are untouched. *)
Theorem reconfigured_keeps_two_handlers root rcs rc (g : Logger.globals (callback := callback)) :
  Logger.handlers (Logger.reconfigured (W := W) root (rcs ++ [rc]) g)
  = [ {| h_sink := Stderr; h_level := Logger.rc_print_level rc |};
      {| h_sink := File (String.append root
                           (String.append "/logs/"
                              (String.append
                                 (Logger.log_name (Logger.rc_name rc) (Logger.rc_date rc))
                                 ".log")));
         h_level := Logger.rc_logfile_level rc |} ]
  /\ Logger._print_level (Logger.reconfigured (W := W) root (rcs ++ [rc]) g)
     = Logger.rc_print_level rc
  /\ Logger._log_callbacks (Logger.reconfigured (W := W) root (rcs ++ [rc]) g)
     = Logger._log_callbacks g.
Proof.
  rewrite reconfigured_snoc. unfold Logger.reconfigure.
  rewrite define_log_level_handlers. repeat split.
  simpl. apply DispatchProps.reconfigured_callbacks.
Qed.

(** X6. Which records reach the observers after [define_log_level]: a
    message logged through the exported logger is fanned out to the
    registered callables when its level is at least the lower of the
    two configured levels, and is dropped before the interception step
    otherwise. *)
Theorem define_log_level_gate root p f name date g lv msg w fuel :
  Logger.log fuel (Logger.logger truth invoke) lv msg
    (fst (Logger.define_log_level (W := W) root p f name date g), w)
  = (if Z.min (no p) (no f) <=? no lv
     then Logger.fan_out truth invoke fuel 0 msg
            (fst (Logger.define_log_level (W := W) root p f name date g), w)
     else Some (Returned (fst (Logger.define_log_level (W := W) root p f name date g), w)))
  /\ Logger._log_callbacks (fst (Logger.define_log_level (W := W) root p f name date g))
     = Logger._log_callbacks g.
Proof.
  split; [|reflexivity].
  rewrite DispatchProps.log_logger. cbn [fst]. rewrite define_log_level_handlers.
  unfold admits. simpl. rewrite orb_false_r.
  destruct (no p <=? no lv) eqn:E1; destruct (no f <=? no lv) eqn:E2;
    destruct (Z.min (no p) (no f) <=? no lv) eqn:E3; simpl; try reflexivity; lia.
Qed.

End Slots.

Lemma remove_log_callback_active_witness :
  0 <= 1
  /\ PyList.getitem
       (Logger._log_callbacks
          (Samples.probes [Some (Samples.Plain 7); Some (Samples.Plain 8); None;
                           Some (Samples.Falsy 9); Some (Samples.Plain 10)])) 1
     = Some (Some (Samples.Plain 8))
  /\ Logger.well_behaved Samples.probe_truth Samples.probe_invoke
       (Logger._log_callbacks
          (Samples.probes [Some (Samples.Plain 7); Some (Samples.Plain 8); None;
                           Some (Samples.Falsy 9); Some (Samples.Plain 10)])) "m"
  /\ (length (Logger._log_callbacks
                (Samples.probes [Some (Samples.Plain 7); Some (Samples.Plain 8); None;
                                 Some (Samples.Falsy 9); Some (Samples.Plain 10)])) < 6)%nat
  /\ exists pre post,
      Logger._log_callbacks
        (Samples.probes [Some (Samples.Plain 7); Some (Samples.Plain 8); None;
                         Some (Samples.Falsy 9); Some (Samples.Plain 10)])
      = pre ++ Some (Samples.Plain 8) :: post
      /\ Z.of_nat (length pre) = 1
      /\ Logger.remove_log_callback 1
           (Logger._log_callbacks
              (Samples.probes [Some (Samples.Plain 7); Some (Samples.Plain 8); None;
                               Some (Samples.Falsy 9); Some (Samples.Plain 10)]))
         = Returned (pre ++ None :: post)
      /\ Logger.active
           (Logger._log_callbacks
              (Samples.probes [Some (Samples.Plain 7); Some (Samples.Plain 8); None;
                               Some (Samples.Falsy 9); Some (Samples.Plain 10)]))
         = Logger.active pre ++ Samples.Plain 8 :: Logger.active post
      /\ Logger.active (pre ++ None :: post) = Logger.active pre ++ Logger.active post
      /\ (exists w1,
            Logger.fan_out Samples.probe_truth (Logger.noting Samples.probe_invoke) 6 0 "m"
              (Samples.probes [Some (Samples.Plain 7); Some (Samples.Plain 8); None;
                               Some (Samples.Falsy 9); Some (Samples.Plain 10)], (tt, []))
            = Some (Returned
                      (Samples.probes [Some (Samples.Plain 7); Some (Samples.Plain 8); None;
                                       Some (Samples.Falsy 9); Some (Samples.Plain 10)],
                       (w1, Logger.noted
                              (Logger.called Samples.probe_truth pre
                               ++ (if Samples.probe_truth (Samples.Plain 8)
                                   then [Samples.Plain 8] else [])
                               ++ Logger.called Samples.probe_truth post) "m"))))
      /\ (exists w2,
            Logger.fan_out Samples.probe_truth (Logger.noting Samples.probe_invoke) 6 0 "m"
              (Logger.with_callbacks (pre ++ None :: post)
                 (Samples.probes [Some (Samples.Plain 7); Some (Samples.Plain 8); None;
                                  Some (Samples.Falsy 9); Some (Samples.Plain 10)]),
               (tt, []))
            = Some (Returned
                      (Logger.with_callbacks (pre ++ None :: post)
                         (Samples.probes [Some (Samples.Plain 7); Some (Samples.Plain 8); None;
                                          Some (Samples.Falsy 9); Some (Samples.Plain 10)]),
                       (w2, Logger.noted
                              (Logger.called Samples.probe_truth pre
                               ++ Logger.called Samples.probe_truth post) "m")))).
Proof.
  assert (H : Logger.well_behaved Samples.probe_truth Samples.probe_invoke
                (Logger._log_callbacks
                   (Samples.probes [Some (Samples.Plain 7); Some (Samples.Plain 8); None;
                                    Some (Samples.Falsy 9); Some (Samples.Plain 10)])) "m").
  { intros cb Hin. simpl in Hin. DispatchProps.each_slot Hin. }
  split; [lia|]. split; [reflexivity|]. split; [exact H|]. split; [simpl; lia|].
  exact (remove_log_callback_active Samples.probe_truth Samples.probe_invoke 1
           (Samples.probes [Some (Samples.Plain 7); Some (Samples.Plain 8); None;
                            Some (Samples.Falsy 9); Some (Samples.Plain 10)])
           (Samples.Plain 8) "m" tt 6%nat ltac:(lia) eq_refl H ltac:(simpl; lia)).
Defined.

Lemma add_then_remove_restores_dispatch_witness :
  Logger.plain Main.invoke Main.effect
    (Logger._log_callbacks (Samples.with_slots [Some Main.Bridge; Some Samples.faulty]))
  /\ (S (length (Logger._log_callbacks
                   (Samples.with_slots [Some Main.Bridge; Some Samples.faulty]))) < 4)%nat
  /\ Logger.remove_log_callback
       (snd (Logger.add_log_callback Main.Bridge
               (Logger._log_callbacks
                  (Samples.with_slots [Some Main.Bridge; Some Samples.faulty]))))
       (fst (Logger.add_log_callback Main.Bridge
               (Logger._log_callbacks
                  (Samples.with_slots [Some Main.Bridge; Some Samples.faulty]))))
     = Returned (Logger._log_callbacks
                   (Samples.with_slots [Some Main.Bridge; Some Samples.faulty]) ++ [None])
  /\ Logger.active
       (Logger._log_callbacks (Samples.with_slots [Some Main.Bridge; Some Samples.faulty])
        ++ [None])
     = Logger.active
         (Logger._log_callbacks (Samples.with_slots [Some Main.Bridge; Some Samples.faulty]))
  /\ exists o,
      Logger.fan_out Main.truth Main.invoke 4 0 "m"
        (Samples.with_slots [Some Main.Bridge; Some Samples.faulty], [])
      = Some (Logger.lift (Samples.with_slots [Some Main.Bridge; Some Samples.faulty]) o)
      /\ Logger.fan_out Main.truth Main.invoke 4 0 "m"
           (Logger.with_callbacks
              (Logger._log_callbacks
                 (Samples.with_slots [Some Main.Bridge; Some Samples.faulty]) ++ [None])
              (Samples.with_slots [Some Main.Bridge; Some Samples.faulty]), [])
         = Some (Logger.lift
                   (Logger.with_callbacks
                      (Logger._log_callbacks
                         (Samples.with_slots [Some Main.Bridge; Some Samples.faulty])
                       ++ [None])
                      (Samples.with_slots [Some Main.Bridge; Some Samples.faulty])) o).
Proof.
  assert (H : Logger.plain Main.invoke Main.effect
                (Logger._log_callbacks
                   (Samples.with_slots [Some Main.Bridge; Some Samples.faulty]))).
  { intros cb _ msg g w. reflexivity. }
  split; [exact H|]. split; [simpl; lia|].
  exact (add_then_remove_restores_dispatch Main.truth Main.invoke Main.effect Main.Bridge
           (Samples.with_slots [Some Main.Bridge; Some Samples.faulty]) "m" [] 4%nat
           H ltac:(simpl; lia)).
Defined.

End LoggerMore.

(** ** The stream driver, further *)

Module DriverMore.

Import Loguru Main DriverProps.

Implicit Types (c : config) (fs : list (site * string)).

(** *** Starting a run *)

(** X7. A prompt with at least one code point that is not white space
    passes the check: with no observer raising, the first request for a
    frame registers the bridge in a new last slot, creates the agent
    task with the whole run before it, sends nothing yet and leaves the
    generator polling. *)
Theorem nonblank_prompt_starts_agent p m (g : Logger.globals) :
  forallb isspace p = false ->
  quiet (Logger._log_callbacks g) ->
  exists c,
    exec [Resume] (spawn p m g) = Some c
    /\ at_ c = Polling
    /\ agent_task c = Pending (body m) (ending m)
    /\ out c = []
    /\ callback_id c = Z.of_nat (length (Logger._log_callbacks g))
    /\ Logger._log_callbacks (globals c) = Logger._log_callbacks g ++ [Some Bridge].
Proof.
  intros Hp Hq. exists (enter (spawn p m g)). split; [reflexivity|].
  unfold enter. rewrite RegistryProps.add_log_callback_id.
  set (c1 := set_callback_id _ (set_callbacks _ (set_queue [] (spawn p m g)))).
  assert (Hq1 : quiet (Logger._log_callbacks (globals c1))) by (apply quiet_add; exact Hq).
  assert (Htr : truthy (strip (prompt c1)) = true).
  { destruct (truthy (strip (prompt c1))) eqn:E; [reflexivity|].
    apply strip_blank in E. simpl in E. congruence. }
  rewrite Htr. simpl negb. cbv iota.
  destruct (logger_call_quiet INFO "Processing your request..." c1 Hq1) as [ps ->].
  unfold loop_head. simpl. repeat split.
Qed.


(** *** Where the bridge is *)

Lemma finally_bridgeless exc c :
  bridge_at c -> registered c ->
  bridgeless (Logger._log_callbacks (globals (finally_ exc c)))
  /\ exists e, at_ (finally_ exc c) = Closed e.
Proof.
  intros Hb Hreg. unfold finally_.
  rewrite (RegistryProps.remove_in_range _ _ Hreg). simpl. split; [|eauto].
  intros i Hi. unfold registered in Hreg.
  destruct (decide (i = Z.to_nat (callback_id c))) as [->|Hne].
  - rewrite list_lookup_insert_eq in Hi by lia. discriminate.
  - rewrite list_lookup_insert_ne in Hi by congruence.
    apply Hb in Hi. lia.
Qed.

Lemma finally_tidy exc c : bridge_at c -> registered c -> tidy (finally_ exc c).
Proof.
  intros Hb Hreg. destruct (finally_bridgeless exc c Hb Hreg) as [H [e He]].
  unfold tidy. rewrite He. exact H.
Qed.

Lemma handler_tidy e c : bridge_at c -> registered c -> tidy (handler e c).
Proof.
  intros Hb Hreg. unfold handler.
  destruct (logger_call_cases ERROR (String.append "An error occurred: " e) c)
    as [ps [H|[e' H]]]; rewrite H.
  - exact Hb.
  - apply finally_tidy; assumption.
Qed.

Lemma completed_tidy c : bridge_at c -> registered c -> tidy (completed c).
Proof.
  intros Hb Hreg. unfold completed.
  destruct (logger_call_cases INFO "Request processing completed." c)
    as [ps [H|[e' H]]]; rewrite H.
  - exact Hb.
  - apply handler_tidy; assumption.
Qed.

Lemma after_loop_tidy c : bridge_at c -> registered c -> tidy (after_loop c).
Proof.
  intros Hb Hreg. unfold after_loop. destruct (negb _); [exact Hb|].
  apply completed_tidy; assumption.
Qed.

Lemma loop_head_tidy c : bridge_at c -> registered c -> tidy (loop_head c).
Proof.
  intros Hb Hreg. unfold loop_head. destruct (_ || _); [exact Hb|].
  apply after_loop_tidy; assumption.
Qed.

Lemma enter_tidy c : bridgeless (Logger._log_callbacks (globals c)) -> tidy (enter c).
Proof.
  intros Hno. unfold enter. rewrite RegistryProps.add_log_callback_id.
  set (c1 := set_callback_id _ (set_callbacks _ (set_queue [] c))).
  assert (Hb : bridge_at c1).
  { intros i Hi. simpl in Hi. apply lookup_app_Some in Hi as [Hi|[Hge Hi]].
    - exfalso. exact (Hno i Hi).
    - simpl. apply lookup_lt_Some in Hi. simpl in Hi. lia. }
  assert (Hreg : registered c1).
  { unfold registered. simpl. rewrite length_app. simpl. lia. }
  destruct (negb _).
  - destruct (logger_call_cases WARNING "Empty prompt provided." c1)
      as [ps [H|[e' H]]]; rewrite H; [exact Hb|].
    apply handler_tidy; assumption.
  - destruct (logger_call_cases INFO "Processing your request..." c1)
      as [ps [H|[e' H]]]; rewrite H.
    + apply loop_head_tidy; assumption.
    + apply handler_tidy; assumption.
Qed.

Lemma tidy_ext c c' :
  at_ c' = at_ c -> callback_id c' = callback_id c -> globals c' = globals c ->
  tidy c -> tidy c'.
Proof.
  intros Hat Hid Hg H. unfold tidy, bridge_at in *. rewrite Hat, Hid, Hg. exact H.
Qed.

Lemma step_tidy t c c' : consistent c -> tidy c -> step t c = Some c' -> tidy c'.
Proof.
  intros [fs Hc] Ht Hstep. unfold tidy in Ht. destruct t; simpl in Hstep.
  - destruct (at_ c) eqn:Hat; try discriminate; try contradiction; injection Hstep as <-.
    + apply enter_tidy. exact Ht.
    + apply finally_tidy; tauto.
    + apply loop_head_tidy; tauto.
    + apply finally_tidy; tauto.
    + apply finally_tidy; tauto.
  - destruct (at_ c) eqn:Hat; simpl in Hstep; try discriminate; try contradiction;
      injection Hstep as <-; apply finally_tidy; tauto.
  - destruct (at_ c) eqn:Hat; try discriminate.
    destruct (queue c); try discriminate. injection Hstep as <-. exact Ht.
  - destruct (at_ c) eqn:Hat; try discriminate. injection Hstep as <-.
    destruct (_ && _); [apply after_loop_tidy|apply loop_head_tidy]; tauto.
  - destruct (at_ c); try discriminate. contradiction.
  - destruct (puts c); try discriminate. injection Hstep as <-.
    apply (tidy_ext c); auto.
  - destruct (agent_task c) as [|acts e|]; try discriminate. injection Hstep as <-.
    destruct (run_agent_frame acts e c) as (_&_&Hg&_&Hid&Hat&_&_).
    apply (tidy_ext c); auto.
Qed.

Lemma exec_tidy ts c c' :
  consistent c -> tidy c -> exec ts c = Some c' -> consistent c' /\ tidy c'.
Proof.
  revert c. induction ts as [|t ts IH]; intros c Hc Ht Hexec; simpl in Hexec.
  - injection Hexec as <-. auto.
  - destruct (step t c) as [c1|] eqn:Hstep; [|discriminate].
    apply (IH c1); [eapply step_consistent|eapply step_tidy|]; eauto.
Qed.

(** A dispatch over slots without the bridge leaves the pending puts as
    they are, also when it raises. *)
Lemma sweep_bridgeless l msg ps :
  bridgeless l -> store_of (Logger.sweep truth effect l msg ps) = ps.
Proof.
  revert ps. induction l as [|[[|f]|] l IH]; intros ps Hno; simpl.
  - reflexivity.
  - exfalso. exact (Hno 0%nat eq_refl).
  - destruct (f msg); [reflexivity|]. apply IH. intros i. exact (Hno (S i)).
  - apply IH. intros i. exact (Hno (S i)).
Qed.

Lemma logger_call_bridgeless lv msg c :
  bridgeless (Logger._log_callbacks (globals c)) ->
  puts (store_of (logger_call lv msg c)) = puts c.
Proof.
  intros Hno. rewrite logger_call_sweep.
  destruct (admits _ lv); [|reflexivity].
  pose proof (sweep_bridgeless _ msg (puts c) Hno) as H.
  destruct (Logger.sweep _ _ _ _ _); simpl in *; exact H.
Qed.

Lemma run_agent_bridgeless acts e c :
  bridgeless (Logger._log_callbacks (globals c)) ->
  puts (run_agent acts e c) = puts c.
Proof.
  revert c. induction acts as [|[lv msg|] acts IH]; intros c Hno; simpl; try reflexivity.
  pose proof (logger_call_bridgeless lv msg c Hno) as Hp.
  destruct (logger_call_cases lv msg c) as [ps [H|[e' H]]]; rewrite H in *; simpl in *.
  - rewrite IH; [exact Hp|exact Hno].
  - exact Hp.
Qed.

Lemma closed_step t c c' :
  closed (at_ c) = true -> bridgeless (Logger._log_callbacks (globals c)) ->
  step t c = Some c' ->
  closed (at_ c') = true
  /\ bridgeless (Logger._log_callbacks (globals c'))
  /\ out c' = out c
  /\ queue c' ++ puts c' = queue c ++ puts c.
Proof.
  intros Hcl Hno Hstep. destruct (at_ c) eqn:Hat; try discriminate.
  destruct t; simpl in Hstep; rewrite ?Hat in Hstep; simpl in Hstep; try discriminate.
  - destruct (puts c) as [|message ps] eqn:Hp; try discriminate. injection Hstep as <-.
    simpl. rewrite Hat, <- app_assoc. auto.
  - destruct (agent_task c) as [|acts e|]; try discriminate. injection Hstep as <-.
    destruct (run_agent_frame acts e c) as (_&_&Hg&Hq&_&Hat'&Hout&_).
    rewrite Hat', Hat, Hg, Hq, Hout, (run_agent_bridgeless acts e c Hno). auto.
Qed.

(** X8. Nothing reaches a connection after its observer has been
    unregistered: once the generator is closed (the registry holding no
    bridge of this connection from before), whatever the agent task
    still logs and whichever tasks still run, no frame is added to the
    output and no message is added to the queue or to the pending puts
    of the connection. *)
Theorem no_delivery_after_unregister p m (g : Logger.globals) ts c ts' c' :
  bridgeless (Logger._log_callbacks g) ->
  exec ts (spawn p m g) = Some c ->
  closed (at_ c) = true ->
  exec ts' c = Some c' ->
  out c' = out c /\ queue c' ++ puts c' = queue c ++ puts c.
Proof.
  intros Hno Hexec Hcl Hexec'.
  destruct (exec_tidy ts _ c (spawn_consistent p m g) Hno Hexec) as [_ Ht].
  unfold tidy in Ht.
  assert (Hno' : bridgeless (Logger._log_callbacks (globals c))).
  { destruct (at_ c); try discriminate. exact Ht. }
  clear Ht Hexec. revert c Hcl Hno' Hexec'.
  induction ts' as [|t ts' IH]; intros c Hcl Hno' Hexec'; simpl in Hexec'.
  - injection Hexec' as <-. auto.
  - destruct (step t c) as [c1|] eqn:Hstep; [|discriminate].
    destruct (closed_step t c c1 Hcl Hno' Hstep) as (Hcl1 & Hno1 & Hout1 & Hq1).
    destruct (IH c1 Hcl1 Hno1 Hexec') as [Hout Hq].
    split; congruence.
Qed.


(** *** How a run ends when no observer raises *)

Lemma finally_quiet exc c :
  quiet (Logger._log_callbacks (globals c)) ->
  exists l,
    quiet l
    /\ finally_ exc c
       = goto (Closed exc)
           (emit CleanedUp (emit (Unregistered (callback_id c)) (set_callbacks l c))).
Proof.
  intros Hq. unfold finally_.
  destruct (RegistryProps.remove_returns (callback_id c) (Logger._log_callbacks (globals c)))
    as (l & Hrm & _).
  rewrite Hrm. exists l. split; [eapply quiet_remove; eauto|reflexivity].
Qed.

Lemma completed_quiet c :
  quiet (Logger._log_callbacks (globals c)) ->
  exists ps, completed c = goto YieldedCompleted (emit completed_frame (set_puts ps c)).
Proof.
  intros Hq. unfold completed.
  destruct (logger_call_quiet INFO "Request processing completed." c Hq) as [ps ->]. eauto.
Qed.

Lemma after_loop_orderly c fs :
  forallb isspace (prompt c) = false ->
  quiet (Logger._log_callbacks (globals c)) ->
  out c = map as_frame fs -> all_messages fs ->
  done (agent_task c) = true ->
  orderly_run (after_loop c).
Proof.
  intros Hp Hq Hout Hall Hd. unfold after_loop. rewrite Hd. simpl.
  destruct (completed_quiet c Hq) as [ps ->].
  repeat split; try assumption. exists fs. simpl. rewrite Hout. auto.
Qed.

Lemma loop_head_orderly c fs :
  forallb isspace (prompt c) = false ->
  quiet (Logger._log_callbacks (globals c)) ->
  out c = map as_frame fs -> all_messages fs ->
  orderly_run (loop_head c).
Proof.
  intros Hp Hq Hout Hall. unfold loop_head.
  destruct (done (agent_task c)) eqn:Hd; simpl.
  - destruct (empty (queue c)); simpl.
    + eapply after_loop_orderly; eauto.
    + repeat split; try assumption. exists fs. simpl. auto.
  - repeat split; try assumption. exists fs. simpl. auto.
Qed.

Lemma orderly_run_ext c c' :
  prompt c' = prompt c -> globals c' = globals c -> at_ c' = at_ c ->
  out c' = out c -> callback_id c' = callback_id c ->
  orderly_run c -> orderly_run c'.
Proof.
  intros Hp Hg Hat Hout Hid (H1 & H2 & fs & Hall & H3).
  unfold orderly_run, orderly. rewrite Hp, Hg, Hat, Hout, Hid. eauto.
Qed.

Lemma step_orderly t c c' : orderly_run c -> step t c = Some c' -> orderly_run c'.
Proof.
  intros Hrun Hstep. pose proof Hrun as (Hp & Hq & fs & Hall & Hc).
  destruct t; simpl in Hstep.
  - destruct (at_ c) eqn:Hat; try discriminate; try contradiction; injection Hstep as <-.
    + unfold enter. rewrite RegistryProps.add_log_callback_id.
      set (c1 := set_callback_id _ (set_callbacks _ (set_queue [] c))).
      assert (Hq1 : quiet (Logger._log_callbacks (globals c1))) by (apply quiet_add; exact Hq).
      assert (Htr : truthy (strip (prompt c1)) = true).
      { destruct (truthy (strip (prompt c1))) eqn:E; [reflexivity|].
        apply strip_blank in E. simpl in E. congruence. }
      rewrite Htr. simpl negb. cbv iota.
      destruct (logger_call_quiet INFO "Processing your request..." c1 Hq1) as [ps ->].
      apply (loop_head_orderly _ []); simpl; auto. constructor.
    + apply (loop_head_orderly _ fs); auto.
    + destruct (finally_quiet None c Hq) as (l & Hql & ->).
      repeat split; try assumption. exists fs. simpl. rewrite Hc.
      split; [exact Hall|]. rewrite <- !app_assoc. reflexivity.
  - destruct (at_ c) eqn:Hat; simpl in Hstep; try discriminate; try contradiction;
      injection Hstep as <-;
      match goal with |- orderly_run (finally_ ?x c) =>
        destruct (finally_quiet x c Hq) as (l & Hql & ->) end;
      (repeat split; try assumption; exists fs; simpl; auto).
  - destruct (at_ c) eqn:Hat; try discriminate.
    destruct (queue c) as [|message q]; try discriminate. injection Hstep as <-.
    repeat split; try assumption. exists (fs ++ [(AtMessage, sse message)]). simpl.
    rewrite Hc, map_as_frame_snoc. split; [|reflexivity].
    apply Forall_app. split; [exact Hall|repeat constructor].
  - destruct (at_ c) eqn:Hat; try discriminate. injection Hstep as <-.
    destruct (done (agent_task c)) eqn:Hd; simpl.
    + destruct (empty (queue c)).
      * apply (after_loop_orderly _ fs); auto.
      * apply (loop_head_orderly _ fs); auto.
    + apply (loop_head_orderly _ fs); auto.
  - destruct (at_ c); try discriminate; contradiction.
  - destruct (puts c); try discriminate. injection Hstep as <-.
    apply (orderly_run_ext c); auto.
  - destruct (agent_task c) as [|acts e|]; try discriminate. injection Hstep as <-.
    destruct (run_agent_frame acts e c) as (Hp'&_&Hg&_&Hid&Hat&Hout&_).
    apply (orderly_run_ext c); auto.
Qed.

Lemma exec_orderly ts c c' : orderly_run c -> exec ts c = Some c' -> orderly_run c'.
Proof.
  revert c. induction ts as [|t ts IH]; intros c Hc Hexec; simpl in Hexec.
  - injection Hexec as <-. exact Hc.
  - destruct (step t c) as [c1|] eqn:Hstep; [|discriminate].
    eapply IH; [eapply step_orderly; eauto|exact Hexec].
Qed.

(** X9. How a stream ends when it is not abandoned: for a prompt that
    is not blank, with no observer raising, a generator that has closed
    without an exception has sent frames of the polling loop only,
    then the completed frame as its last frame, and has then
    unregistered the observer and cleaned up the agent; this holds
    whether the agent run returned or raised. *)
Theorem stream_ends_with_completed_frame p m (g : Logger.globals) ts c :
  forallb isspace p = false ->
  quiet (Logger._log_callbacks g) ->
  exec ts (spawn p m g) = Some c ->
  at_ c = Closed None ->
  exists fs,
    all_messages fs
    /\ out c = map as_frame fs
               ++ [completed_frame; Unregistered (callback_id c); CleanedUp].
Proof.
  intros Hp Hq Hexec Hat.
  assert (H0 : orderly_run (spawn p m g)).
  { repeat split; try assumption. exists []. split; [constructor|reflexivity]. }
  destruct (exec_orderly _ _ _ H0 Hexec) as (_ & _ & fs & Hall & Hc).
  rewrite Hat in Hc. eauto.
Qed.


(** *** The completed frame and the agent task *)

Ltac not_completed H :=
  repeat (apply elem_of_cons in H as [H|H]; [discriminate H|]);
  apply elem_of_nil in H; contradiction.

Lemma completed_means_done_app t evs more :
  completed_means_done t evs ->
  (forall text, Frame AtCompleted text ∉ more) ->
  completed_means_done t (evs ++ more).
Proof.
  intros H Hmore [text Hin]. apply elem_of_app in Hin as [Hin|Hin].
  - apply H. eauto.
  - exfalso. exact (Hmore text Hin).
Qed.

Lemma finally_completed_means_done exc c :
  completed_means_done (agent_task c) (out c) ->
  completed_means_done (agent_task (finally_ exc c)) (out (finally_ exc c)).
Proof.
  intros H. unfold finally_. destruct (Logger.remove_log_callback _ _) as [l|e l]; simpl.
  - rewrite <- app_assoc. apply completed_means_done_app; [exact H|].
    intros text Hin. simpl in Hin. not_completed Hin.
  - exact H.
Qed.

Lemma handler_completed_means_done e c :
  completed_means_done (agent_task c) (out c) ->
  completed_means_done (agent_task (handler e c)) (out (handler e c)).
Proof.
  intros H. unfold handler.
  destruct (logger_call_cases ERROR (String.append "An error occurred: " e) c)
    as [ps [E|[e' E]]]; rewrite E.
  - simpl. apply completed_means_done_app; [exact H|].
    intros text Hin. not_completed Hin.
  - apply finally_completed_means_done. exact H.
Qed.

Lemma completed_agent_task c : agent_task (completed c) = agent_task c.
Proof.
  assert (F : forall exc c0, agent_task (finally_ exc c0) = agent_task c0).
  { intros exc c0. unfold finally_. destruct (Logger.remove_log_callback _ _); reflexivity. }
  assert (Hh : forall e c0, agent_task (handler e c0) = agent_task c0).
  { intros e c0. unfold handler.
    destruct (logger_call_cases ERROR (String.append "An error occurred: " e) c0)
      as [ps [E|[e' E]]]; rewrite E; [reflexivity|]. rewrite F. reflexivity. }
  unfold completed.
  destruct (logger_call_cases INFO "Request processing completed." c)
    as [ps [E|[e' E]]]; rewrite E; [reflexivity|]. rewrite Hh. reflexivity.
Qed.

Lemma completed_completed_means_done c :
  done (agent_task c) = true ->
  completed_means_done (agent_task (completed c)) (out (completed c)).
Proof. intros Hd _. rewrite completed_agent_task. exact Hd. Qed.

Lemma after_loop_completed_means_done c :
  completed_means_done (agent_task c) (out c) ->
  completed_means_done (agent_task (after_loop c)) (out (after_loop c)).
Proof.
  intros H. unfold after_loop. destruct (done (agent_task c)) eqn:Hd; simpl.
  - apply completed_completed_means_done. exact Hd.
  - exact H.
Qed.

Lemma loop_head_completed_means_done c :
  completed_means_done (agent_task c) (out c) ->
  completed_means_done (agent_task (loop_head c)) (out (loop_head c)).
Proof.
  intros H. unfold loop_head. destruct (_ || _); [exact H|].
  apply after_loop_completed_means_done. exact H.
Qed.

Lemma enter_completed_means_done c :
  out c = [] ->
  completed_means_done (agent_task (enter c)) (out (enter c)).
Proof.
  intros Hout. unfold enter. rewrite RegistryProps.add_log_callback_id.
  set (c1 := set_callback_id _ (set_callbacks _ (set_queue [] c))).
  assert (H1 : forall t, completed_means_done t (out c1)).
  { intros t [text Hin]. simpl in Hin. rewrite Hout in Hin. not_completed Hin. }
  destruct (negb _).
  - destruct (logger_call_cases WARNING "Empty prompt provided." c1)
      as [ps [E|[e' E]]]; rewrite E.
    + simpl. apply completed_means_done_app; [apply H1|].
      intros text Hin. not_completed Hin.
    + apply handler_completed_means_done. simpl. apply H1.
  - destruct (logger_call_cases INFO "Processing your request..." c1)
      as [ps [E|[e' E]]]; rewrite E.
    + apply loop_head_completed_means_done. simpl. apply H1.
    + apply handler_completed_means_done. simpl. apply H1.
Qed.

Lemma step_completed_means_done t c c' :
  consistent c ->
  completed_means_done (agent_task c) (out c) ->
  step t c = Some c' ->
  completed_means_done (agent_task c') (out c').
Proof.
  intros [fs Hc] H Hstep. destruct t; simpl in Hstep.
  - destruct (at_ c) eqn:Hat; try discriminate; injection Hstep as <-;
      auto using finally_completed_means_done, loop_head_completed_means_done.
    apply enter_completed_means_done. tauto.
  - destruct (thrown_in (at_ c)); try discriminate. injection Hstep as <-.
    apply finally_completed_means_done. exact H.
  - destruct (at_ c); try discriminate.
    destruct (queue c) as [|message q]; try discriminate. injection Hstep as <-.
    simpl. apply completed_means_done_app; [exact H|].
    intros text Hin. not_completed Hin.
  - destruct (at_ c); try discriminate. injection Hstep as <-.
    destruct (_ && _);
      auto using after_loop_completed_means_done, loop_head_completed_means_done.
  - destruct (at_ c); try discriminate. contradiction.
  - destruct (puts c); try discriminate. injection Hstep as <-. exact H.
  - destruct (agent_task c) as [|acts e|] eqn:Ht; try discriminate. injection Hstep as <-.
    destruct (run_agent_frame acts e c) as (_&_&_&_&_&_&Hout&_).
    intros Hsent. rewrite Hout in Hsent. specialize (H Hsent). discriminate H.
Qed.

(** X10. The completed frame never overtakes the agent: at every point
    of every run, if the completed frame has been sent, the agent task
    has finished. *)
Theorem completed_frame_only_after_agent_done p m (g : Logger.globals) ts c :
  exec ts (spawn p m g) = Some c ->
  completed_sent c ->
  done (agent_task c) = true.
Proof.
  intros Hexec Hsent.
  assert (H : consistent c /\ completed_means_done (agent_task c) (out c)).
  { assert (H0 : consistent (spawn p m g)
                 /\ completed_means_done (agent_task (spawn p m g)) (out (spawn p m g))).
    { split; [apply spawn_consistent|]. intros [text Hin]. simpl in Hin. not_completed Hin. }
    revert H0 Hexec. generalize (spawn p m g) as c0.
    induction ts as [|t ts IH]; intros c0 [Hc H] Hexec; simpl in Hexec.
    - injection Hexec as <-. auto.
    - destruct (step t c0) as [c1|] eqn:Hstep; [|discriminate].
      apply (IH c1); [|exact Hexec].
      split; [eapply step_consistent|eapply step_completed_means_done]; eauto. }
  destruct H as [_ H]. apply H. exact Hsent.
Qed.


(** *** The first frame *)

Lemma sweep_quiet_replicates l msg ps :
  quiet l ->
  exists k, Logger.sweep truth effect l msg ps = Returned (ps ++ replicate k msg).
Proof.
  revert ps. induction l as [|[[|f]|] l IH]; intros ps Hq; simpl.
  - exists 0%nat. simpl. rewrite app_nil_r. reflexivity.
  - destruct (IH (ps ++ [msg])) as [k H]; [intros i; exact (Hq (S i))|].
    exists (S k). rewrite H, <- app_assoc. reflexivity.
  - rewrite (Hq 0%nat f msg eq_refl). apply IH. intros i. exact (Hq (S i)).
  - apply IH. intros i. exact (Hq (S i)).
Qed.

Lemma enter_pipeline p m (g : Logger.globals) :
  forallb isspace p = false ->
  quiet (Logger._log_callbacks g) ->
  admits (Logger.handlers g) INFO = true ->
  at_ (enter (spawn p m g)) = Polling
  /\ exists rest,
      pipeline (enter (spawn p m g)) = sse "Processing your request..." :: rest.
Proof.
  intros Hp Hq Hadm. unfold enter. rewrite RegistryProps.add_log_callback_id.
  set (c1 := set_callback_id _ (set_callbacks _ (set_queue [] (spawn p m g)))).
  assert (Htr : truthy (strip (prompt c1)) = true).
  { destruct (truthy (strip (prompt c1))) eqn:E; [reflexivity|].
    apply strip_blank in E. simpl in E. congruence. }
  rewrite Htr. simpl negb. cbv iota.
  rewrite logger_call_sweep.
  change (Logger.handlers (globals c1)) with (Logger.handlers g). rewrite Hadm.
  change (Logger._log_callbacks (globals c1)) with (Logger._log_callbacks g ++ [Some Bridge]).
  rewrite DispatchProps.sweep_app.
  destruct (sweep_quiet_replicates (Logger._log_callbacks g)
              "Processing your request..." (puts c1) Hq) as [k ->].
  simpl. split; [reflexivity|].
  unfold pipeline. simpl. destruct k; simpl; eauto.
Qed.

(** X11. The first thing queued for the client is the driver's own
    start message: for a prompt that is not blank, with no observer
    raising and INFO records admitted by the configured destinations,
    the pipeline of the connection starts with the frame of
    "Processing your request..." from the first turn of the generator
    on; so the first frame the polling loop sends, if it sends one, is
    that frame. *)
Theorem first_frame_is_processing p m (g : Logger.globals) ts c :
  forallb isspace p = false ->
  quiet (Logger._log_callbacks g) ->
  admits (Logger.handlers g) INFO = true ->
  exec (Resume :: ts) (spawn p m g) = Some c ->
  (exists rest, pipeline c = sse "Processing your request..." :: rest)
  /\ forall text, head (omap message_of (frames (out c))) = Some text ->
                  text = sse "Processing your request...".
Proof.
  intros Hp Hq Hadm Hexec.
  change (exec (Resume :: ts) (spawn p m g)) with (exec ts (enter (spawn p m g))) in Hexec.
  destruct (enter_pipeline p m g Hp Hq Hadm) as (Hat & rest & Hpipe).
  assert (Hstarted : at_ (enter (spawn p m g)) <> Fresh) by (rewrite Hat; discriminate).
  destruct (exec_extends ts _ c Hstarted Hexec) as [tail Hext].
  rewrite Hpipe in Hext. simpl in Hext.
  split; [eauto|].
  intros text Hhead. unfold pipeline in Hext.
  destruct (omap message_of (frames (out c))) as [|x xs]; [discriminate|].
  simpl in Hhead, Hext. congruence.
Qed.

(** *** What the generator never does *)

(** X12. [await agent_task] of line 71 is dead code: the polling loop is
    left only when [agent_task.done()] holds, so the guard before the
    [await] is never true and the generator is never suspended there. *)
Theorem await_agent_task_is_dead_code p m (g : Logger.globals) ts c :
  exec ts (spawn p m g) = Some c ->
  at_ c <> AwaitingAgent /\ step Joined c = None.
Proof.
  intros Hexec.
  assert (Hat : at_ c <> AwaitingAgent) by (eapply await_agent_unreachable; eauto).
  split; [exact Hat|]. simpl. destruct (at_ c); try reflexivity. contradiction.
Qed.

(** X13. The [except Exception] block is entered only through a log
    call that raises: with no observer raising, no run ever sends an
    error frame, whatever the agent run does, be it that it raises. *)
Theorem no_error_frame_without_raising_observer p m (g : Logger.globals) ts c :
  quiet (Logger._log_callbacks g) ->
  exec ts (spawn p m g) = Some c ->
  forall text, Frame AtError text ∉ out c.
Proof.
  intros Hq Hexec text Hin.
  pose proof (error_frame_never_sent p m g ts c Hq Hexec) as H.
  rewrite Forall_forall in H.
  apply (H (AtError, text)); [|reflexivity].
  unfold frames. apply list_elem_of_omap. exists (Frame AtError text). auto.
Qed.

(** X14. Messages keep their order on the way to the client: from one
    point of a started run to any later one, the sequence made of the
    messages already sent by the polling loop, the queue and the
    pending puts only grows at its end; no turn of the event loop
    reorders, repeats or removes a message, and what has been sent so
    far is always an initial part of that sequence. *)
Theorem pipeline_only_grows ts c c' :
  at_ c <> Fresh ->
  exec ts c = Some c' ->
  exists tail,
    pipeline c' = pipeline c ++ tail
    /\ omap message_of (frames (out c')) `prefix_of` pipeline c ++ tail.
Proof.
  intros Hs Hexec. destruct (exec_extends ts c c' Hs Hexec) as [tail Hext].
  exists tail. split; [exact Hext|]. rewrite <- Hext.
  unfold pipeline. eexists. reflexivity.
Qed.


(** *** Instances *)

Lemma quiet_g0 : quiet (Logger._log_callbacks g0).
Proof. intros i f msg H. simpl in H. discriminate H. Qed.

Lemma bridgeless_g0 : bridgeless (Logger._log_callbacks g0).
Proof. intros i H. simpl in H. discriminate H. Qed.

Lemma nonblank_prompt_starts_agent_witness :
  forallb isspace Samples.hello = false
  /\ quiet (Logger._log_callbacks g0)
  /\ exists c,
      exec [Resume] (spawn Samples.hello Samples.two_lines g0) = Some c
      /\ at_ c = Polling
      /\ agent_task c = Pending (body Samples.two_lines) (ending Samples.two_lines)
      /\ out c = []
      /\ callback_id c = Z.of_nat (length (Logger._log_callbacks g0))
      /\ Logger._log_callbacks (globals c) = Logger._log_callbacks g0 ++ [Some Bridge].
Proof.
  split; [reflexivity|]. split; [exact quiet_g0|].
  exact (nonblank_prompt_starts_agent Samples.hello Samples.two_lines g0 eq_refl quiet_g0).
Defined.

(** The consumer gives up after the first turn; the agent task then
    logs its first message into a registry without the bridge. *)
Lemma no_delivery_after_unregister_witness :
  bridgeless (Logger._log_callbacks g0)
  /\ exists c c',
      exec [Resume; Abandon] (spawn Samples.hello Samples.three_messages g0) = Some c
      /\ closed (at_ c) = true
      /\ exec [RunAgent; RunPut] c = Some c'
      /\ out c' = out c
      /\ queue c' ++ puts c' = queue c ++ puts c.
Proof.
  split; [exact bridgeless_g0|].
  eexists. eexists.
  split; [vm_compute; reflexivity|]. split; [reflexivity|].
  split; [vm_compute; reflexivity|].
  apply (no_delivery_after_unregister Samples.hello Samples.three_messages g0
           [Resume; Abandon] _ [RunAgent; RunPut] _ bridgeless_g0);
    vm_compute; reflexivity.
Defined.

Lemma stream_ends_with_completed_frame_witness :
  forallb isspace Samples.hello = false
  /\ quiet (Logger._log_callbacks g0)
  /\ exists c,
      exec (Samples.agent_finishes_first ++ [RunPut])
        (spawn Samples.hello Samples.failing g0) = Some c
      /\ at_ c = Closed None
      /\ exists fs,
          all_messages fs
          /\ out c = map as_frame fs
                     ++ [completed_frame; Unregistered (callback_id c); CleanedUp].
Proof.
  split; [reflexivity|]. split; [exact quiet_g0|].
  eexists. split; [vm_compute; reflexivity|]. split; [reflexivity|].
  apply (stream_ends_with_completed_frame Samples.hello Samples.failing g0
           (Samples.agent_finishes_first ++ [RunPut]) _ eq_refl quiet_g0);
    vm_compute; reflexivity.
Defined.

Lemma completed_frame_only_after_agent_done_witness :
  exists c,
    exec Samples.agent_finishes_between
      (spawn Samples.hello Samples.three_messages g0) = Some c
    /\ completed_sent c
    /\ done (agent_task c) = true.
Proof.
  eexists. split; [vm_compute; reflexivity|].
  assert (Hsent : completed_sent
                    (default (spawn Samples.hello Samples.three_messages g0)
                       (exec Samples.agent_finishes_between
                          (spawn Samples.hello Samples.three_messages g0)))).
  { exists (sse "Request processing completed."). vm_compute.
    apply list_elem_of_In. simpl. tauto. }
  split; [exact Hsent|].
  apply (completed_frame_only_after_agent_done Samples.hello Samples.three_messages g0
           Samples.agent_finishes_between); [vm_compute; reflexivity|exact Hsent].
Defined.

Lemma first_frame_is_processing_witness :
  forallb isspace Samples.hello = false
  /\ quiet (Logger._log_callbacks g0)
  /\ admits (Logger.handlers g0) INFO = true
  /\ exists c,
      exec (Resume :: [RunPut; RunAgent; Deliver])
        (spawn Samples.hello Samples.two_lines g0) = Some c
      /\ (exists rest, pipeline c = sse "Processing your request..." :: rest)
      /\ forall text, head (omap message_of (frames (out c))) = Some text ->
                      text = sse "Processing your request...".
Proof.
  split; [reflexivity|]. split; [exact quiet_g0|]. split; [reflexivity|].
  eexists. split; [vm_compute; reflexivity|].
  apply (first_frame_is_processing Samples.hello Samples.two_lines g0
           [RunPut; RunAgent; Deliver] _ eq_refl quiet_g0 eq_refl).
  vm_compute. reflexivity.
Defined.

Lemma await_agent_task_is_dead_code_witness :
  exists c,
    exec [Resume; RunPut; RunAgent; Timeout]
      (spawn Samples.hello Samples.failing g0) = Some c
    /\ at_ c <> AwaitingAgent /\ step Joined c = None.
Proof.
  eexists. split; [vm_compute; reflexivity|].
  apply (await_agent_task_is_dead_code Samples.hello Samples.failing g0
           [Resume; RunPut; RunAgent; Timeout]).
  vm_compute. reflexivity.
Defined.

Lemma no_error_frame_without_raising_observer_witness :
  quiet (Logger._log_callbacks g0)
  /\ exists c,
      exec Samples.agent_finishes_first
        (spawn Samples.hello Samples.failing g0) = Some c
      /\ forall text, Frame AtError text ∉ out c.
Proof.
  split; [exact quiet_g0|].
  eexists. split; [vm_compute; reflexivity|].
  apply (no_error_frame_without_raising_observer Samples.hello Samples.failing g0
           Samples.agent_finishes_first _ quiet_g0).
  vm_compute. reflexivity.
Defined.

Lemma pipeline_only_grows_witness :
  exists c c',
    exec [Resume; RunPut] (spawn Samples.hello Samples.three_messages g0) = Some c
    /\ at_ c <> Fresh
    /\ exec [RunAgent; Deliver; Resume; RunPut] c = Some c'
    /\ exists tail,
        pipeline c' = pipeline c ++ tail
        /\ omap message_of (frames (out c')) `prefix_of` pipeline c ++ tail.
Proof.
  eexists. eexists. split; [vm_compute; reflexivity|].
  split; [discriminate|]. split; [vm_compute; reflexivity|].
  apply (pipeline_only_grows [RunAgent; Deliver; Resume; RunPut]);
    [discriminate|vm_compute; reflexivity].
Defined.

End DriverMore.

(** ** The entry point of the Yahoo Finance tool *)

Module ToolProps.

Import YFinance.

(** X15. Missing arguments are reported before anything else happens:
    when [action] is absent or falsy the result is the error naming
    [action]; otherwise, when [ticker] is absent or falsy and the action
    is not "search", it is the error naming [ticker], also for an action
    that does not exist; in both cases no helper has any influence on
    the result. *)
Theorem execute_reports_missing_arguments
    price info history tinfo price' info' history' tinfo' (kwargs : gmap string value) :
  truthy (get kwargs "action" VNone) = false
  \/ (truthy (get kwargs "ticker" VNone) = false
      /\ eq_str (get kwargs "action" VNone) "search" = false) ->
  execute price info history tinfo kwargs
  = Error (if truthy (get kwargs "action" VNone)
           then "Missing required parameter: 'ticker'"
           else "Missing required parameter: 'action'. Choose from: price, info, history, search")
  /\ execute price' info' history' tinfo' kwargs = execute price info history tinfo kwargs.
Proof.
  intros H. unfold execute.
  destruct (truthy (get kwargs "action" VNone)) eqn:Ha; simpl.
  - destruct H as [H|[Ht Hs]]; [discriminate|]. rewrite Ht, Hs. simpl. auto.
  - auto.
Qed.

Lemma execute_reports_missing_arguments_witness :
  (truthy (get ({[ "action" := VStr "bogus" ]} : gmap string value) "action" VNone) = false
   \/ (truthy (get ({[ "action" := VStr "bogus" ]} : gmap string value) "ticker" VNone) = false
       /\ eq_str (get ({[ "action" := VStr "bogus" ]} : gmap string value) "action" VNone)
            "search" = false))
  /\ execute (fun _ => Text "p") (fun _ => Text "i") (fun _ _ => Text "h")
       (fun _ => Info None) {[ "action" := VStr "bogus" ]}
     = Error (if truthy (get ({[ "action" := VStr "bogus" ]} : gmap string value) "action" VNone)
              then "Missing required parameter: 'ticker'"
              else "Missing required parameter: 'action'. Choose from: price, info, history, search")
  /\ execute (fun _ => Throws "x") (fun _ => Throws "x") (fun _ _ => Throws "x")
       (fun _ => InfoRaises "x") {[ "action" := VStr "bogus" ]}
     = execute (fun _ => Text "p") (fun _ => Text "i") (fun _ _ => Text "h")
         (fun _ => Info None) {[ "action" := VStr "bogus" ]}.
Proof.
  assert (H : truthy (get ({[ "action" := VStr "bogus" ]} : gmap string value) "action" VNone)
              = false
              \/ (truthy (get ({[ "action" := VStr "bogus" ]} : gmap string value)
                            "ticker" VNone) = false
                  /\ eq_str (get ({[ "action" := VStr "bogus" ]} : gmap string value)
                               "action" VNone) "search" = false)).
  { right. split; vm_compute; reflexivity. }
  split; [exact H|].
  exact (execute_reports_missing_arguments _ _ _ _ _ _ _ _ _ H).
Defined.

(** What [execute] makes of the reply of a helper, for an action of the
    list. *)
Lemma finish_known action r :
  known action = true ->
  (exists text, r = Text text /\ finish action r = Output (String.append text reminder))
  \/ (exists e, r = Throws e
                /\ finish action r = Error (String.append "Error executing YFinance tool: " e)).
Proof.
  intros Hk. destruct r as [text|e]; simpl; [left|right]; eauto.
  rewrite Hk. eauto.
Qed.

(** X16. Whatever the arguments and whatever the helpers do, [execute]
    ends in one of four ways.  Without a truthy [action] it is the
    error naming [action].  Without a truthy [ticker], for an action
    other than "search", it is the error naming [ticker].  For an
    action that is none of the four, it is the error "Invalid action".
    Otherwise exactly one helper is called, the one the action names,
    with [ticker] (and [period] for "history"), or [search_stocks] with
    [query or ticker]: when it returns a text, the result is an output,
    that text followed by the reminder to call the terminate tool; when
    it raises, the result is an error, "Error executing YFinance tool: "
    followed by the exception's text.  So no output goes out without
    the reminder, and no exception of a helper leaves [execute]. *)
Theorem execute_result_shape price info history tinfo (kwargs : gmap string value) :
  (truthy (get kwargs "action" VNone) = false
   /\ execute price info history tinfo kwargs
      = Error "Missing required parameter: 'action'. Choose from: price, info, history, search")
  \/ (truthy (get kwargs "action" VNone) = true
      /\ truthy (get kwargs "ticker" VNone) = false
      /\ eq_str (get kwargs "action" VNone) "search" = false
      /\ execute price info history tinfo kwargs = Error "Missing required parameter: 'ticker'")
  \/ (truthy (get kwargs "action" VNone) = true
      /\ truthy (get kwargs "ticker" VNone) = true
      /\ known (get kwargs "action" VNone) = false
      /\ execute price info history tinfo kwargs
         = Error (concat_all ["Invalid action: "; str (get kwargs "action" VNone);
                              ". Choose from: price, info, history, search"]))
  \/ (truthy (get kwargs "action" VNone) = true
      /\ known (get kwargs "action" VNone) = true
      /\ exists r,
          ((eq_str (get kwargs "action" VNone) "price" = true
            /\ r = price (get kwargs "ticker" VNone))
           \/ (eq_str (get kwargs "action" VNone) "info" = true
               /\ r = info (get kwargs "ticker" VNone))
           \/ (eq_str (get kwargs "action" VNone) "history" = true
               /\ r = history (get kwargs "ticker" VNone) (get kwargs "period" (VStr "1mo")))
           \/ (eq_str (get kwargs "action" VNone) "search" = true
               /\ r = Text (search_stocks tinfo
                              (if truthy (get kwargs "query" VNone)
                               then get kwargs "query" VNone
                               else get kwargs "ticker" VNone)
                              (get kwargs "limit" (VInt 5)))))
          /\ ((exists text,
                 r = Text text
                 /\ execute price info history tinfo kwargs
                    = Output (String.append text reminder))
              \/ (exists e,
                    r = Throws e
                    /\ execute price info history tinfo kwargs
                       = Error (String.append "Error executing YFinance tool: " e)))).
Proof.
  unfold execute.
  set (action := get kwargs "action" VNone).
  set (ticker := get kwargs "ticker" VNone).
  destruct (truthy action) eqn:Ha; simpl; [|left; auto].
  right.
  destruct (eq_str action "price") eqn:E1.
  { destruct (truthy ticker) eqn:Ht; destruct (eq_str action "search") eqn:Es; simpl;
      try (left; auto; fail); right; right;
      (assert (Hk : known action = true) by (unfold known; rewrite E1; reflexivity));
      (split; [reflexivity|]); (split; [exact Hk|]);
      exists (price ticker); (split; [left; auto|]); apply finish_known, Hk. }
  destruct (eq_str action "info") eqn:E2.
  { destruct (truthy ticker) eqn:Ht; destruct (eq_str action "search") eqn:Es; simpl;
      try (left; auto; fail); right; right;
      (assert (Hk : known action = true) by (unfold known; rewrite E1, E2; reflexivity));
      (split; [reflexivity|]); (split; [exact Hk|]);
      exists (info ticker); (split; [right; left; auto|]); apply finish_known, Hk. }
  destruct (eq_str action "history") eqn:E3.
  { destruct (truthy ticker) eqn:Ht; destruct (eq_str action "search") eqn:Es; simpl;
      try (left; auto; fail); right; right;
      (assert (Hk : known action = true) by (unfold known; rewrite E1, E2, E3; reflexivity));
      (split; [reflexivity|]); (split; [exact Hk|]);
      exists (history ticker (get kwargs "period" (VStr "1mo")));
      (split; [right; right; left; auto|]); apply finish_known, Hk. }
  destruct (eq_str action "search") eqn:E4.
  { assert (Hk : known action = true) by (unfold known; rewrite E1, E2, E3, E4; reflexivity).
    rewrite andb_false_r. right. right.
    split; [reflexivity|]. split; [exact Hk|].
    eexists. split; [right; right; right; split; reflexivity|].
    exact (finish_known action (Text _) Hk). }
  assert (Hk : known action = false) by (unfold known; rewrite E1, E2, E3, E4; reflexivity).
  destruct (truthy ticker) eqn:Ht; simpl.
  - right. left. auto.
  - left. auto.
Qed.

(** X17. The [limit] argument has no effect: [search_stocks] looks up
    the one ticker named by the query and never reads [limit], so
    setting, changing or dropping [limit] in the arguments leaves the
    result of [execute] as it is, for every action. *)
Theorem execute_ignores_limit price info history tinfo (kwargs : gmap string value) v :
  execute price info history tinfo (<["limit" := v]> kwargs)
  = execute price info history tinfo kwargs
  /\ execute price info history tinfo (delete "limit" kwargs)
     = execute price info history tinfo kwargs.
Proof.
  assert (G : forall key d, key <> "limit" ->
                get (<["limit" := v]> kwargs) key d = get kwargs key d
                /\ get (delete "limit" kwargs) key d = get kwargs key d).
  { intros key d Hk. unfold get.
    rewrite lookup_insert_ne, lookup_delete_ne by congruence. auto. }
  unfold execute.
  destruct (G "action" VNone ltac:(discriminate)) as [-> ->].
  destruct (G "ticker" VNone ltac:(discriminate)) as [-> ->].
  destruct (G "period" (VStr "1mo") ltac:(discriminate)) as [-> ->].
  destruct (G "query" VNone ltac:(discriminate)) as [-> ->].
  split; reflexivity.
Qed.

End ToolProps.

